(** * MateBot: money transactions and transaction logs

    A shallow embedding of [mate_bot/state/transactions.py]: the class
    [Transaction] (constructor and [commit]) and the class [TransactionLog]
    (constructor, [validate], [to_string], [to_json]).

    Python objects that are mutated in place live in an explicit state:
    the user objects in a heap indexed by references, the transaction
    object and the local variable [connection] of [commit] in the frame
    of the running method.  Exceptions are outcomes that keep the state
    reached when they were raised. *)

From stdpp Require Import base option numbers list strings gmap.
From Stdlib Require Import ZArith Lia.

#[local] Open Scope Z_scope.

(** ** Outcomes and the state-and-exception monad *)

(** The exception classes the module raises or lets through.  Messages
    are not kept.  [OperationalError] is the failure of a store call,
    [DataError] a record the store does not hold, [IndexError] a
    subscript on an empty result, [DanglingReference] a reference that
    the heap does not hold (no Python program can build one). *)
Inductive exn : Type :=
  | ValueError
  | TypeError
  | RuntimeError
  | OperationalError
  | DataError
  | IndexError
  | DanglingReference.

Inductive outcome (A : Type) : Type :=
  | Ok (a : A)
  | Raise (e : exn).
Arguments Ok {A} a.
Arguments Raise {A} e.

Definition M (S A : Type) : Type := S → outcome A * S.

#[global] Instance M_ret {S} : MRet (M S) := λ A a s, (Ok a, s).
#[global] Instance M_bind {S} : MBind (M S) := λ A B f m s,
  match m s with
  | (Ok a, s') => f a s'
  | (Raise e, s') => (Raise e, s')
  end.

Definition raise {S A} (e : exn) : M S A := λ s, (Raise e, s).
Definition gets {S A} (f : S → A) : M S A := λ s, (Ok (f s), s).
Definition modify {S} (f : S → S) : M S unit := λ s, (Ok tt, f s).

(** [try: body finally: fin]: [fin] runs on both exits of [body]; an
    exception of [fin] replaces the outcome of [body]. *)
Definition try_finally {S A} (body : M S A) (fin : M S unit) : M S A := λ s,
  match body s with
  | (r, s') =>
      match fin s' with
      | (Ok _, s'') => (r, s'')
      | (Raise e, s'') => (Raise e, s'')
      end
  end.

(** ** Data model *)

(** References to user objects in the heap. *)
Abbreviation loc := nat.

(** A Python value as far as the [isinstance] tests of the module tell
    values apart. *)
Inductive PyValue : Type :=
  | PyUser (l : loc)
  | PyInt (n : Z)
  | PyStr (s : string)
  | PyNone.

(** Modelled from the spec: [user.BaseBotUser] is not part of the
    sources at hand.  The spec describes an Account as an identity with
    a cached balance (section 3), which the object refreshes from the
    Account Store. *)
Record BaseBotUser : Type := {
  uid : Z;
  balance : Z
}.

(** A row of table [transactions].  [registered] is the stored value,
    a [datetime] without a time zone: its reading of date and time of
    day, counted in microseconds from 1970-01-01 00:00:00 (a Python
    [datetime] has microsecond resolution).  Which instant the reading
    stands for is up to the code that uses it: [to_string] reads it as
    UTC ([_tz.utc.localize]). *)
Record Entry : Type := {
  entry_id : Z;
  sender : Z;
  receiver : Z;
  amount : Z;
  reason : option string;
  registered : Z
}.

(** A row of table [users]: the telegram identity and the balance. *)
Record UserRow : Type := {
  row_tid : Z;
  row_balance : Z
}.

Record Tables : Type := {
  users : gmap Z UserRow;
  transactions : list Entry;
  auto_increment : Z
}.

(** An open connection works on its own copy of the tables: its writes
    are visible to others once [connection.commit()] has run. *)
Record Connection : Type := {
  pending : Tables;
  last_insert_id : Z
}.

Record Transaction : Type := {
  _src : loc;
  _dst : loc;
  _amount : Z;
  _reason : option string;
  _committed : bool;
  _id : option Z
}.

(** The state [Transaction.commit] runs in: the object [self], the local
    variable [connection], the heap of user objects, the visible tables
    of the store, the store's clock, the number of store calls made so
    far and the failures of the store ([fail n] makes the call number
    [n] raise). *)
Record State : Type := {
  self : Transaction;
  connection : option Connection;
  heap : gmap nat BaseBotUser;
  tables : Tables;
  clock : Z;
  calls : nat;
  fail : nat → bool
}.

Definition set_self (t : Transaction) (s : State) : State :=
  {| self := t; connection := connection s; heap := heap s;
     tables := tables s; clock := clock s; calls := calls s; fail := fail s |}.
Definition set_connection (c : option Connection) (s : State) : State :=
  {| self := self s; connection := c; heap := heap s;
     tables := tables s; clock := clock s; calls := calls s; fail := fail s |}.
Definition set_heap (h : gmap nat BaseBotUser) (s : State) : State :=
  {| self := self s; connection := connection s; heap := h;
     tables := tables s; clock := clock s; calls := calls s; fail := fail s |}.
Definition set_tables (tb : Tables) (s : State) : State :=
  {| self := self s; connection := connection s; heap := heap s;
     tables := tb; clock := clock s; calls := calls s; fail := fail s |}.
Definition set_calls (n : nat) (s : State) : State :=
  {| self := self s; connection := connection s; heap := heap s;
     tables := tables s; clock := clock s; calls := n; fail := fail s |}.

(** ** The store *)

(** Every store call is counted, and raises when the store fails at
    that call. *)
Definition tick : M State unit := λ s,
  if fail s (calls s)
  then (Raise OperationalError, set_calls (S (calls s)) s)
  else (Ok tt, set_calls (S (calls s)) s).

Definition deref (l : loc) : M State BaseBotUser := λ s,
  match heap s !! l with
  | Some o => (Ok o, s)
  | None => (Raise DanglingReference, s)
  end.

(** Modelled from the spec: [BaseBotUser.update] is not part of the
    sources at hand.  Spec 4.1 step 1: "Refresh cached balances of both
    accounts from the Account Store".  An account the store does not
    hold has no balance to read: the call raises. *)
Definition update (l : loc) : M State unit :=
  _ ← tick;
  o ← deref l;
  tb ← gets tables;
  match users tb !! uid o with
  | Some r =>
      modify (λ s, set_heap (<[l := {| uid := uid o; balance := row_balance r |}]> (heap s)) s)
  | None => raise DataError
  end.

(** The statements [commit] sends through [_db.execute_no_commit]. *)
Inductive statement : Type :=
  | InsertTransaction (snd rcv amt : Z) (rsn : option string)
  | SelectLastInsertId
  | UpdateUserBalance (bal : Z) (u : Z).

(** [UPDATE users SET balance=%s WHERE id=%s] *)
Definition set_balance (bal u : Z) (tb : Tables) : Tables :=
  match users tb !! u with
  | Some r =>
      {| users := <[u := {| row_tid := row_tid r; row_balance := bal |}]> (users tb);
         transactions := transactions tb;
         auto_increment := auto_increment tb |}
  | None => tb
  end.

(** [INSERT INTO transactions (sender, receiver, amount, reason)]: the
    store gives the row its [id] and its [registered] instant. *)
Definition insert_transaction (snd rcv amt : Z) (rsn : option string) (now : Z)
    (tb : Tables) : Tables :=
  {| users := users tb;
     transactions :=
       transactions tb ++
       [{| entry_id := auto_increment tb; sender := snd; receiver := rcv;
           amount := amt; reason := rsn; registered := now |}];
     auto_increment := auto_increment tb + 1 |}.

Definition run_statement (q : statement) (now : Z) (c : Connection)
  : Z * list Z * Connection :=
  match q with
  | InsertTransaction snd rcv amt rsn =>
      (1, [],
       {| pending := insert_transaction snd rcv amt rsn now (pending c);
          last_insert_id := auto_increment (pending c) |})
  | SelectLastInsertId => (1, [last_insert_id c], c)
  | UpdateUserBalance bal u =>
      ((if users (pending c) !! u is Some _ then 1 else 0), [],
       {| pending := set_balance bal u (pending c);
          last_insert_id := last_insert_id c |})
  end.

(** Modelled from the spec: [dbhelper.execute_no_commit] is not part of
    the sources at hand.  Spec 6: [beginAtomicUnit], and within the
    handle [appendLedgerEntry] and [setBalance].  Without a connection
    the call opens one on a copy of the visible tables.  The result is
    the row count, the result rows and the connection, whose new
    contents the caller keeps (the Python object is changed in place). *)
Definition execute_no_commit (q : statement) (conn : option Connection)
  : M State (Z * list Z * Connection) :=
  _ ← tick;
  tb ← gets tables;
  now ← gets clock;
  let c := match conn with
           | Some c => c
           | None => {| pending := tb; last_insert_id := 0 |}
           end in
  mret (run_statement q now c).

(** Modelled from the spec: [connection.commit()], spec 6 [finalize]:
    the writes of the connection become the visible tables. *)
Definition connection_commit (c : Connection) : M State unit :=
  _ ← tick;
  modify (set_tables (pending c)).

(** Modelled from the spec: [connection.close()], spec 6 [release]: the
    handle and the writes it has not committed are dropped. *)
Definition connection_close : M State unit :=
  modify (set_connection None).

(** ** Transaction *)

Definition is_user (v : PyValue) : bool :=
  match v with PyUser _ => true | _ => false end.

(** [Transaction.__init__].  The amount is an [int], as the signature
    annotates it: [int(amount)] is then the amount itself. *)
Definition Transaction_init {S} (src dst : PyValue) (amt : Z) (rsn : option string)
  : M S Transaction :=
  if amt <=? 0 then raise ValueError
  else match src, dst with
       | PyUser s, PyUser d =>
           mret {| _src := s; _dst := d; _amount := amt; _reason := rsn;
                   _committed := false; _id := None |}
       | _, _ => raise TypeError
       end.

Definition set_id (i : option Z) (t : Transaction) : Transaction :=
  {| _src := _src t; _dst := _dst t; _amount := _amount t; _reason := _reason t;
     _committed := _committed t; _id := i |}.
Definition set_committed (b : bool) (t : Transaction) : Transaction :=
  {| _src := _src t; _dst := _dst t; _amount := _amount t; _reason := _reason t;
     _committed := b; _id := _id t |}.

(** The body of the [try] block of [commit]. *)
Definition commit_body : M State unit :=
  t ← gets self;
  _ ← update (_src t);
  _ ← update (_dst t);
  src ← deref (_src t);
  dst ← deref (_dst t);
  '(_, _, c) ← execute_no_commit
      (InsertTransaction (uid src) (uid dst) (_amount t) (_reason t)) None;
  _ ← modify (set_connection (Some c));
  '(rows, values, c) ← execute_no_commit SelectLastInsertId (Some c);
  _ ← modify (set_connection (Some c));
  _ ← (if rows =? 1
       then match values with
            | v :: _ => modify (λ s, set_self (set_id (Some v) (self s)) s)
            | [] => raise IndexError
            end
       else mret tt);
  src ← deref (_src t);
  '(_, _, c) ← execute_no_commit
      (UpdateUserBalance (balance src - _amount t) (uid src)) (Some c);
  _ ← modify (set_connection (Some c));
  dst ← deref (_dst t);
  '(_, _, c) ← execute_no_commit
      (UpdateUserBalance (balance dst + _amount t) (uid dst)) (Some c);
  _ ← modify (set_connection (Some c));
  _ ← connection_commit c;
  _ ← update (_src t);
  _ ← update (_dst t);
  modify (λ s, set_self (set_committed true (self s)) s).

(** [Transaction.commit] *)
Definition commit : M State unit :=
  t ← gets self;
  if _amount t <? 0 then raise RuntimeError
  else if _amount t =? 0 then raise RuntimeError
  else if negb (_committed t) && bool_decide (_id t = None) then
    _ ← modify (set_connection None);
    try_finally commit_body
      (c ← gets connection;
       match c with
       | Some _ => connection_close
       | None => mret tt
       end)
  else mret tt.

(** [Transaction.get] *)
Definition get (t : Transaction) : option Z :=
  if _committed t then _id t else None.

(** ** TransactionLog *)

#[global] Instance outcome_ret : MRet outcome := λ A a, Ok a.
#[global] Instance outcome_bind : MBind outcome := λ A B f r,
  match r with
  | Ok a => f a
  | Raise e => Raise e
  end.

(** [_valid] holds [True], [False] or [None]. *)
Record TransactionLog : Type := {
  _uid : Z;
  _mode : Z;
  _log : list Entry;
  _valid : option bool
}.

Definition set_valid (v : option bool) (l : TransactionLog) : TransactionLog :=
  {| _uid := _uid l; _mode := _mode l; _log := _log l; _valid := v |}.

(** The three queries of the constructor:
    [SELECT * FROM transactions WHERE sender=%s],
    [... WHERE receiver=%s] and [... WHERE sender=%s OR receiver=%s]. *)
Inductive query : Type :=
  | WhereSender (u : Z)
  | WhereReceiver (u : Z)
  | WhereSenderOrReceiver (u : Z).

Definition where_clause (q : query) (e : Entry) : bool :=
  match q with
  | WhereSender u => sender e =? u
  | WhereReceiver u => receiver e =? u
  | WhereSenderOrReceiver u => (sender e =? u) || (receiver e =? u)
  end.

(** A scan of the table in its stored order. *)
Fixpoint select_rows (p : Entry → bool) (rows : list Entry) : list Entry :=
  match rows with
  | [] => []
  | e :: rest => if p e then e :: select_rows p rest else select_rows p rest
  end.

(** Modelled from the spec: [dbhelper.execute] is not part of the
    sources at hand.  Spec 6: [queryBySender], [queryByReceiver] and
    [queryBySenderOrReceiver] return the ordered sequence of entries; the
    call returns the number of rows and the rows. *)
Definition execute (q : query) (tb : Tables) : Z * list Entry :=
  let rows := select_rows (where_clause q) (transactions tb) in
  (Z.of_nat (length rows), rows).

(** Modelled from the spec: [BaseBotUser.get_tid_from_uid] is not part
    of the sources at hand.  Spec 6: [resolveExists(accountId)]; the code
    tests the result against [None]. *)
Definition get_tid_from_uid (tb : Tables) (u : Z) : option Z :=
  row_tid <$> users tb !! u.

(** Modelled from the spec: [user.MateBotUser] is not part of the
    sources at hand.  Spec 6: [readBalance(accountId)]; there is no
    balance to read for an account the store does not hold. *)
Definition MateBotUser (tb : Tables) (u : Z) : outcome BaseBotUser :=
  match users tb !! u with
  | Some r => Ok {| uid := u; balance := row_balance r |}
  | None => Raise DataError
  end.

(** The loop of [validate]: [start] is the running balance. *)
Fixpoint validate_loop (u : Z) (log : list Entry) (start : Z) : outcome Z :=
  match log with
  | [] => Ok start
  | entry :: rest =>
      if receiver entry =? u then validate_loop u rest (start + amount entry)
      else if sender entry =? u then validate_loop u rest (start - amount entry)
      else Raise RuntimeError
  end.

(** [TransactionLog.validate] *)
Definition validate (self : TransactionLog) (start : Z) (tb : Tables)
  : outcome (option bool) :=
  if negb (_mode self =? 0) then Ok None
  else
    u ← MateBotUser tb (_uid self);
    let current := balance u in
    start ← validate_loop (_uid self) (_log self) start;
    Ok (Some (start =? current)).

(** [TransactionLog.__init__] from the result of the query on. *)
Definition TransactionLog_init_from (u mode : Z) (res : Z * list Entry)
    (tb : Tables) : outcome TransactionLog :=
  let '(rows, log) := res in
  let valid :=
    negb ((rows =? 0) && bool_decide (get_tid_from_uid tb u = None)) in
  let log := if Z.of_nat (length log) =? 0 then [] else log in
  let self := {| _uid := u; _mode := mode; _log := log; _valid := Some valid |} in
  if valid
  then v ← validate self 0 tb; Ok (set_valid v self)
  else Ok (set_valid (Some false) self).

Definition mode_query (mode u : Z) : query :=
  if mode <? 0 then WhereSender u
  else if 0 <? mode then WhereReceiver u
  else WhereSenderOrReceiver u.

(** [TransactionLog.__init__] *)
Definition TransactionLog_init (h : gmap nat BaseBotUser) (tb : Tables)
    (arg : PyValue) (mode : Z) : outcome TransactionLog :=
  u ← match arg with
      | PyInt n => Ok n
      | PyUser l =>
          match h !! l with
          | Some o => Ok (uid o)
          | None => Raise DanglingReference
          end
      | _ => Raise TypeError
      end;
  TransactionLog_init_from u mode (execute (mode_query mode u) tb) tb.

Definition DEFAULT_NULL_REASON_REPLACE : string := "<no description>".

Definition newline : string := String (Ascii.ascii_of_nat 10) EmptyString.

Fixpoint spaces (n : nat) : string :=
  match n with
  | O => EmptyString
  | S n => String (Ascii.ascii_of_nat 32) (spaces n)
  end.

(** [len(s)] of a Python [str] held here as its UTF-8 bytes: the number
    of characters, that is of the bytes that do not continue a character
    (the bytes 128 to 191 do). *)
Definition continues_character (a : Ascii.ascii) : bool :=
  (128 <=? Ascii.nat_of_ascii a)%nat && (Ascii.nat_of_ascii a <? 192)%nat.

Fixpoint len (s : string) : nat :=
  match s with
  | EmptyString => O
  | String a s => ((if continues_character a then 0 else 1) + len s)%nat
  end.

(** [{:<11}]: left-aligned in a field of the given width, counted in
    characters. *)
Definition ljust (width : nat) (s : string) : string :=
  String.append s (spaces (width - len s)).

(** [sep.join(parts)] *)
Fixpoint join (sep : string) (parts : list string) : string :=
  match parts with
  | [] => EmptyString
  | [p] => p
  | p :: rest => String.append p (String.append sep (join sep rest))
  end.

Section Rendering.

(** What [to_string] takes from outside the module: the display name
    of an account ([BaseBotUser.get_name_from_uid]), the text of an
    instant in UTC or in the local zone ([pytz], [tzlocal] and
    [time.strftime]) and the text of an amount of cents divided by 100,
    negated or not, in the format [{:>+6.2f}].  All three are taken as
    given text: a lookup that finds no name, for which the format
    [{:<11}] of the code has no text to pad, is left out. *)
Variable get_name_from_uid : Z → string.
Variable strftime : bool → Z → string.
Variable format_amount : bool → Z → string.

Definition format_line (ts amt direction partner rsn : string) : string :=
  String.append ts (String.append ": " (String.append amt
    (String.append ": me " (String.append direction (String.append " "
      (String.append (ljust 11 partner) (String.append " :: " rsn))))))).

(** The loop of [to_string]: the lines of the entries, in order. *)
Fixpoint to_string_loop (u : Z) (localized : bool) (log : list Entry)
  : outcome (list string) :=
  match log with
  | [] => Ok []
  | entry :: rest =>
      let rsn := default DEFAULT_NULL_REASON_REPLACE (reason entry) in
      '(direction, partner, negated) ←
        (if receiver entry =? u then Ok ("<<"%string, sender entry, false)
         else if sender entry =? u then Ok (">>"%string, receiver entry, true)
         else Raise RuntimeError);
      let line :=
        format_line (strftime localized (registered entry))
          (format_amount negated (amount entry))
          direction (get_name_from_uid partner) rsn in
      logs ← to_string_loop u localized rest;
      Ok (line :: logs)
  end.

(** [TransactionLog.to_string] *)
Definition to_string (self : TransactionLog) (localized : bool) : outcome string :=
  logs ← to_string_loop (_uid self) localized (_log self);
  if (0 <? length logs)%nat then Ok (join newline logs) else Ok EmptyString.

End Rendering.

(** A row of [to_json]: the entry with an integer in [registered]. *)
Record JsonEntry : Type := {
  json_id : Z;
  json_sender : Z;
  json_receiver : Z;
  json_amount : Z;
  json_reason : option string;
  json_registered : Z
}.

Section MachineReadable.

(** What [to_json] takes from outside the module: [int(x.timestamp())]
    of Python's [datetime], applied to the stored value.  For a value
    without a time zone, as the stored one is, [timestamp()] reads the
    date and time of day in the local zone of the process and returns
    the seconds since the epoch as a float, of which [int] keeps the
    whole part. *)
Variable timestamp : Z → Z.

(** [TransactionLog.to_json] *)
Definition to_json (self : TransactionLog) : list JsonEntry :=
  map (λ entry,
         {| json_id := entry_id entry;
            json_sender := sender entry;
            json_receiver := receiver entry;
            json_amount := amount entry;
            json_reason := reason entry;
            json_registered := timestamp (registered entry) |})
      (_log self).

End MachineReadable.

(** The stored value of an instant given in whole seconds since the
    epoch: its reading in UTC, as [to_string] takes it, and so what the
    round-trip law of the rendering derives from a rendered row. *)
Definition instant_of_epoch (seconds : Z) : Z := seconds * 1000000.

(** ** Vocabulary of the properties *)

(** The store answers every call from the current one on. *)
Definition healthy (s : State) : Prop :=
  ∀ n, (calls s ≤ n)%nat → fail s n = false.

(** The store answers the next [k] calls and fails at the one after. *)
Definition fails_at (k : nat) (s : State) : Prop :=
  fail s (k + calls s)%nat = true ∧
  ∀ j, (j < k)%nat → fail s (j + calls s)%nat = false.

(** The stored balance of an account. *)
Definition stored_balance (tb : Tables) (u : Z) : option Z :=
  row_balance <$> users tb !! u.

(** A transaction as the constructor leaves it. *)
Definition fresh (t : Transaction) : Prop :=
  _committed t = false ∧ _id t = None ∧ 0 < _amount t.

(** The two user objects of [self] are in the heap and the store holds
    a row for each of them. *)
Definition accounts_ready (s : State) (os od : BaseBotUser) (rs rd : UserRow) : Prop :=
  heap s !! _src (self s) = Some os ∧
  heap s !! _dst (self s) = Some od ∧
  users (tables s) !! uid os = Some rs ∧
  users (tables s) !! uid od = Some rd.

(** *** A small store for the closed examples

    Two accounts, 1 with 1000 cents and 2 with 50 cents, no entries yet;
    user object 0 stands for account 1, user object 1 for account 2. *)
Definition example_tables : Tables :=
  {| users := <[1 := {| row_tid := 1001; row_balance := 1000 |}]>
                (<[2 := {| row_tid := 1002; row_balance := 50 |}]> ∅);
     transactions := [];
     auto_increment := 1 |}.

Definition example_heap : gmap nat BaseBotUser :=
  <[0%nat := {| uid := 1; balance := 0 |}]>
    (<[1%nat := {| uid := 2; balance := 0 |}]> ∅).

Definition example_state (t : Transaction) (f : nat → bool) : State :=
  {| self := t; connection := None; heap := example_heap;
     tables := example_tables; clock := 1600000000000000;
     calls := 0; fail := f |}.

Definition example_transfer (src dst : nat) : Transaction :=
  {| _src := src; _dst := dst; _amount := 100; _reason := None;
     _committed := false; _id := None |}.

Definition never_fails : nat → bool := λ _, false.
Definition fails_only_at (k : nat) : nat → bool := λ n, Nat.eqb n k.

(** A transfer of 100 cents from account 1 to account 2 about to be
    committed: on a store that answers, and on a store that fails at its
    fifth call, the first [UPDATE]. *)
Definition transfer_pending : State :=
  example_state (example_transfer 0 1) never_fails.

Definition transfer_committed : State := (commit transfer_pending).2.

Definition transfer_pending_faulty : State :=
  example_state (example_transfer 0 1) (fails_only_at 4).

(** The same store before a transfer from account 1 to itself is built. *)
Definition self_transfer_start : State :=
  example_state (example_transfer 0 0) never_fails.

(** *** Vocabulary of the ledger view *)

(** The entry names the account as receiver or as sender. *)
Definition relevant (u : Z) (e : Entry) : Prop :=
  receiver e = u ∨ sender e = u.

(** The entry names the account on neither side. *)
Definition foreign (u : Z) (e : Entry) : Prop :=
  sender e ≠ u ∧ receiver e ≠ u.

(** Spec 4.2 in its own words: "add amount when the account is the
    receiver, subtract when the account is the sender", over every
    fetched entry, from the baseline.  The two tests are independent: an
    entry that names the account on both sides is added and
    subtracted. *)
Definition claimed_amount (u : Z) (e : Entry) : Z :=
  (if bool_decide (receiver e = u) then amount e else 0)
  - (if bool_decide (sender e = u) then amount e else 0).

Definition claimed_balance (u start : Z) (log : list Entry) : Z :=
  start + foldr (λ e acc, claimed_amount u e + acc) 0 log.

(** The entries that name the account on both sides. *)
Definition self_entries (u : Z) (log : list Entry) : list Entry :=
  filter (λ e, sender e = u ∧ receiver e = u) log.

(** What the loop of [validate] counts for an entry, with its [if] and
    [elif]: the amount where the account is the receiver, otherwise the
    amount negated where it is the sender.  An entry that names the
    account on both sides counts as received. *)
Definition signed_amount (u : Z) (e : Entry) : Z :=
  if bool_decide (receiver e = u) then amount e
  else if bool_decide (sender e = u) then - amount e
  else 0.

Definition recomputed_balance (u start : Z) (log : list Entry) : Z :=
  start + foldr (λ e acc, signed_amount u e + acc) 0 log.

(** Spec 4.2: the account "can be independently resolved to a known
    identity". *)
Definition resolves (tb : Tables) (u : Z) : bool :=
  bool_decide (is_Some (get_tid_from_uid tb u)).

(** A ledger for the closed examples: account 1 has received 500 from
    account 2 and sent 200 to it. *)
Definition received_500 : Entry :=
  {| entry_id := 1; sender := 2; receiver := 1; amount := 500;
     reason := None; registered := 1600000000000000 |}.

Definition sent_200 : Entry :=
  {| entry_id := 2; sender := 1; receiver := 2; amount := 200;
     reason := Some "crate"; registered := 1600000060000000 |}.

Definition example_ledger (balance1 : Z) : Tables :=
  {| users := <[1 := {| row_tid := 1001; row_balance := balance1 |}]>
                (<[2 := {| row_tid := 1002; row_balance := -300 |}]> ∅);
     transactions := [received_500; sent_200];
     auto_increment := 3 |}.

(** An entry between accounts 2 and 3. *)
Definition between_2_and_3 : Entry :=
  {| entry_id := 7; sender := 2; receiver := 3; amount := 10;
     reason := None; registered := 1600000000000000 |}.

(** What [Transaction(u, u, 100).commit()] leaves in a store where
    account 1 held nothing and had no history: the entry from account 1
    to itself, and 100 cents on the account. *)
Definition self_transfer_100 : Entry :=
  {| entry_id := 1; sender := 1; receiver := 1; amount := 100;
     reason := None; registered := 1600000000000000 |}.

Definition self_transfer_ledger : Tables :=
  {| users := <[1 := {| row_tid := 1001; row_balance := 100 |}]> ∅;
     transactions := [self_transfer_100];
     auto_increment := 2 |}.

(** Stand-in for [int(x.timestamp())] in a process whose local zone is
    [offset] seconds ahead of UTC, for stored values of whole seconds
    (the float of [timestamp()] is then exact): the reading, taken as
    local time, is [offset] seconds earlier as an instant. *)
Definition timestamp_in_zone (offset : Z) : Z → Z :=
  λ reading, reading / 1000000 - offset.

(** A store in which account 5 exists with balance 0 and is named by no
    entry. *)
Definition untouched_account_tables : Tables :=
  {| users := <[5 := {| row_tid := 1005; row_balance := 0 |}]> ∅;
     transactions := [between_2_and_3];
     auto_increment := 8 |}.

(** Stand-ins for what [to_string] takes from outside the module. *)
Definition no_name : Z → string := λ _, "somebody".
Definition no_time : bool → Z → string := λ _ _, "01.01.1970 00:00".
Definition no_amount : bool → Z → string := λ _ _, " +0.00".

(** *** Further vocabulary *)

(** [Transaction.__bool__] *)
Definition Transaction_bool (t : Transaction) : bool := _committed t.

(** The money the store holds: the sum of the balances of table
    [users]. *)
Definition total_balance (tb : Tables) : Z :=
  map_fold (λ _ r acc, row_balance r + acc) 0 (users tb).

(** The sum of the amounts of a list of entries. *)
Definition sum_amounts (log : list Entry) : Z :=
  foldr (λ e acc, amount e + acc) 0 log.

(** The entry a [commit] started in state [s] stores: the id and the
    instant come from the store, the rest from the transaction and its
    two user objects. *)
Definition transfer_entry (s : State) (e : Entry) : Prop :=
  entry_id e = auto_increment (tables s) ∧
  amount e = _amount (self s) ∧
  reason e = _reason (self s) ∧
  registered e = clock s ∧
  (∀ o, heap s !! _src (self s) = Some o → sender e = uid o) ∧
  (∀ o, heap s !! _dst (self s) = Some o → receiver e = uid o).

Definition committed_entry (s : State) (os od : BaseBotUser) : Entry :=
  {| entry_id := auto_increment (tables s); sender := uid os; receiver := uid od;
     amount := _amount (self s); reason := _reason (self s); registered := clock s |}.

(** The transfer of the examples on a store that fails at its third
    call, the [INSERT], and on one that fails at its eighth call, the
    refresh after [connection.commit()]. *)
Definition transfer_pending_early_fault : State :=
  example_state (example_transfer 0 1) (fails_only_at 2).

Definition transfer_pending_refresh_fault : State :=
  example_state (example_transfer 0 1) (fails_only_at 7).

(** A transfer of 100 cents from account 1 to account 2 about to be
    committed on the example ledger, where account 1 holds the 300 cents
    its history explains. *)
Definition transfer_pending_on_ledger : State :=
  {| self := example_transfer 0 1; connection := None; heap := example_heap;
     tables := example_ledger 300; clock := 1600000120000000;
     calls := 0; fail := never_fails |}.

Definition log_in_order : TransactionLog :=
  {| _uid := 1; _mode := 0; _log := [received_500; sent_200]; _valid := None |}.

Definition log_reversed : TransactionLog :=
  {| _uid := 1; _mode := 0; _log := [sent_200; received_500]; _valid := None |}.

(** * Properties of [Transaction] *)

(** ** Running [commit] on a symbolic state *)

Ltac unfold_commit :=
  unfold commit, commit_body, try_finally, update, execute_no_commit,
    connection_commit, connection_close, tick, deref, gets, modify,
    mbind, M_bind, mret, M_ret, raise,
    set_self, set_connection, set_heap, set_tables, set_calls.

Ltac unfold_setters :=
  unfold set_self, set_connection, set_heap, set_tables, set_calls.

(** One step of the run: settle the next lookup or the next answer of
    the store from the hypotheses. *)
Ltac settle_lookup :=
  first
    [ rewrite lookup_insert_eq
    | rewrite lookup_insert_ne by congruence
    | match goal with
      | H : ?m !! ?k = Some _ |- context [?m !! ?k] => rewrite H
      | H : ∀ n, _ → ?f n = false |- context [?f _] => rewrite H by lia
      | H : ?f ?n = false |- context [?f ?n] => rewrite H
      | H : ?f ?n = true |- context [?f ?n] => rewrite H
      end ].

Ltac run_step :=
  unfold set_balance; unfold_setters; simpl;
  first
    [ match goal with
      | H : uid ?o = uid ?o' |- context [uid ?o'] => rewrite <- H
      end
    | settle_lookup ].

(** The same without opening the writes of the connection, for runs
    that never reach [connection.commit()]. *)
Ltac run_fault_step := unfold_setters; simpl; settle_lookup.

Lemma users_set_balance bal u tb k :
  users (set_balance bal u tb) !! k =
    if decide (k = u)
    then (λ r, {| row_tid := row_tid r; row_balance := bal |}) <$> users tb !! u
    else users tb !! k.
Proof.
  unfold set_balance. destruct (users tb !! u) as [r|] eqn:E; simpl.
  - case_decide; subst; [by rewrite lookup_insert_eq | by rewrite lookup_insert_ne].
  - case_decide; subst; [by rewrite E | done].
Qed.

Lemma stored_balance_set_balance bal u tb k :
  stored_balance (set_balance bal u tb) k =
    if decide (k = u) then (λ _, bal) <$> users tb !! u else stored_balance tb k.
Proof.
  unfold stored_balance. rewrite users_set_balance.
  case_decide; [|done]. by destruct (users tb !! u).
Qed.

Lemma transactions_set_balance bal u tb :
  transactions (set_balance bal u tb) = transactions tb.
Proof. unfold set_balance. by destruct (users tb !! u). Qed.

(** A commit of a fresh transaction on a store that answers: the state
    it ends in.  Both writes are computed from the balances read before
    the first of them. *)
Lemma commit_fresh s os od rs rd :
  fresh (self s) → accounts_ready s os od rs rd → healthy s →
  ∃ s', commit s = (Ok tt, s') ∧
    tables s' =
      set_balance (row_balance rd + _amount (self s)) (uid od)
        (set_balance (row_balance rs - _amount (self s)) (uid os)
           (insert_transaction (uid os) (uid od) (_amount (self s))
              (_reason (self s)) (clock s) (tables s))) ∧
    self s' = set_committed true (set_id (Some (auto_increment (tables s))) (self s)) ∧
    connection s' = None ∧ calls s' = (9 + calls s)%nat ∧
    fail s' = fail s ∧ clock s' = clock s.
Proof.
  intros (Hc & Hi & Ha) (Hs & Hd & Hrs & Hrd) Hf.
  destruct s as [t c h tb clk n f].
  destruct t as [src dst a rsn cm i]. unfold healthy in Hf. simpl in *. subst cm i.
  unfold_commit. simpl.
  destruct (Z.ltb_spec a 0); [lia|].
  destruct (Z.eqb_spec a 0); [lia|].
  destruct (decide (src = dst)) as [->|Hne]; [simplify_eq|
    destruct (decide (uid os = uid od)) as [Hu|Hu];
      [assert (rd = rs) by (rewrite Hu in Hrs; congruence); subst rd; clear Hrd|]];
    repeat run_step; simpl; (eexists; split; [reflexivity|]); simpl;
    unfold insert_transaction; repeat run_step; done.
Qed.

(** A commit whose store fails at one of the calls up to and including
    [connection.commit()] (calls 0 to 6): the exception passes through,
    the visible tables are as before, the transaction is not committed;
    from the fifth call on, [_id] keeps the id read from the store. *)
Lemma commit_fault s k os od rs rd :
  fresh (self s) → accounts_ready s os od rs rd →
  (k ≤ 6)%nat → fails_at k s →
  ∃ s', commit s = (Raise OperationalError, s') ∧
    tables s' = tables s ∧
    self s' = set_id (if (k <? 4)%nat then None
                      else Some (auto_increment (tables s))) (self s) ∧
    connection s' = None ∧ calls s' = (S k + calls s)%nat ∧
    fail s' = fail s ∧ clock s' = clock s ∧
    (∀ l o, heap s !! l = Some o → ∃ o', heap s' !! l = Some o' ∧ uid o' = uid o).
Proof.
  intros (Hc & Hi & Ha) (Hs & Hd & Hrs & Hrd) Hk [Hf Hb].
  destruct s as [t c h tb clk n f].
  destruct t as [src dst a rsn cm i]. simpl in *. subst cm i.
  pose proof (Hb 0%nat) as H0; pose proof (Hb 1%nat) as H1;
  pose proof (Hb 2%nat) as H2; pose proof (Hb 3%nat) as H3;
  pose proof (Hb 4%nat) as H4; pose proof (Hb 5%nat) as H5. clear Hb.
  unfold_commit. simpl.
  destruct (Z.ltb_spec a 0); [lia|].
  destruct (Z.eqb_spec a 0); [lia|].
  destruct k as [|[|[|[|[|[|[|?]]]]]]]; try lia; simpl in *;
    repeat match goal with
           | H : (?a < ?b)%nat → _ |- _ => first [specialize (H ltac:(lia)) | clear H]
           end.
  all: destruct (decide (src = dst)) as [->|Hne]; [simplify_eq|];
    repeat run_fault_step; simpl; (eexists; split; [reflexivity|]); simpl;
    repeat (split; [done|]);
    intros l o Hl;
    repeat match goal with
           | |- context [<[?j := _]> _ !! l] =>
               destruct (decide (j = l)) as [->|];
               [rewrite lookup_insert_eq | rewrite lookup_insert_ne by done]
           end; simplify_eq; eauto.
Qed.

(** With the guard closed ([_committed] set or [_id] assigned), [commit]
    returns at once: the state, the count of store calls included, is as
    before. *)
Lemma commit_guard_closed s :
  0 < _amount (self s) →
  _committed (self s) = true ∨ _id (self s) ≠ None →
  commit s = (Ok tt, s).
Proof.
  intros Ha Hg. unfold commit, mbind, M_bind, gets, mret, M_ret.
  destruct (Z.ltb_spec (_amount (self s)) 0); [lia|].
  destruct (Z.eqb_spec (_amount (self s)) 0); [lia|].
  destruct Hg as [-> | Hi]; [done|].
  rewrite bool_decide_eq_false_2 by done. by rewrite andb_false_r.
Qed.

Lemma Transaction_init_users {S} (ls ld : nat) amt rsn (s : S) :
  0 < amt →
  Transaction_init (PyUser ls) (PyUser ld) amt rsn s =
    (Ok {| _src := ls; _dst := ld; _amount := amt; _reason := rsn;
           _committed := false; _id := None |}, s).
Proof.
  intros Ha. unfold Transaction_init.
  destruct (Z.leb_spec amt 0); [lia|done].
Qed.

(** A successful commit of a fresh transaction cannot have skipped a
    step: it made all nine store calls, appended one entry and left the
    transaction committed with the id the store gave to the entry. *)
Lemma commit_Ok_inv s0 s1 :
  fresh (self s0) → commit s0 = (Ok tt, s1) →
  _committed (self s1) = true ∧
  _id (self s1) = Some (auto_increment (tables s0)) ∧
  _amount (self s1) = _amount (self s0) ∧
  (∃ e, transactions (tables s1) = transactions (tables s0) ++ [e]) ∧
  calls s1 = (9 + calls s0)%nat.
Proof.
  intros (Hc & Hi & Ha).
  destruct s0 as [t c h tb clk n f].
  destruct t as [src dst a rsn cm i]. simpl in *. subst cm i.
  unfold_commit. simpl.
  destruct (Z.ltb_spec a 0); [lia|].
  destruct (Z.eqb_spec a 0); [lia|].
  simpl.
  repeat (match goal with
          | |- context [if ?f ?n then _ else _] => destruct (f n) eqn:?
          | |- context [match ?m !! ?k with _ => _ end] => destruct (m !! k) eqn:?
          end; unfold_setters; simpl; try discriminate).
  intros [= <-]. simpl. rewrite !transactions_set_balance.
  unfold insert_transaction. simpl. eauto 10.
Qed.

(** Between two different accounts a commit moves the amount: the
    sender's stored balance goes down by it, the receiver's up by it, no
    other balance changes and the ledger grows by one entry. *)
Lemma commit_conserves s os od rs rd :
  fresh (self s) → accounts_ready s os od rs rd → healthy s →
  uid os ≠ uid od →
  ∃ s', commit s = (Ok tt, s') ∧
    stored_balance (tables s') (uid os) = Some (row_balance rs - _amount (self s)) ∧
    stored_balance (tables s') (uid od) = Some (row_balance rd + _amount (self s)) ∧
    (∀ u, u ≠ uid os → u ≠ uid od →
       stored_balance (tables s') u = stored_balance (tables s) u) ∧
    length (transactions (tables s')) = S (length (transactions (tables s))).
Proof.
  intros Hfr Hrdy Hh Hne.
  destruct (commit_fresh s os od rs rd Hfr Hrdy Hh) as (s' & Hrun & Htb & _).
  destruct Hrdy as (_ & _ & Hrs & Hrd).
  exists s'. split; [done|]. rewrite Htb. repeat split.
  - rewrite !stored_balance_set_balance, decide_False, decide_True by done.
    unfold insert_transaction. simpl. by rewrite Hrs.
  - rewrite stored_balance_set_balance, decide_True by done.
    rewrite users_set_balance, decide_False by done.
    unfold insert_transaction. simpl. by rewrite Hrd.
  - intros u Hs Hd. by rewrite !stored_balance_set_balance, !decide_False by done.
  - rewrite !transactions_set_balance. unfold insert_transaction. simpl.
    rewrite length_app. simpl. lia.
Qed.

(** C1.  The claim: a successful commit lowers the source account's
    balance by the amount and raises the destination account's by it.
    The constructor accepts the same account on both sides, and then the
    code does otherwise: both writes start from the balance read before
    the first one, the second overrides the first, and the one account
    ends with its balance raised by the amount; no other balance moves,
    so the money in the store has grown by the amount. *)
Theorem commit_self_transfer_adds_amount (ls ld : nat) amt rsn s os od r :
  0 < amt →
  heap s !! ls = Some os → heap s !! ld = Some od → uid os = uid od →
  users (tables s) !! uid os = Some r →
  healthy s →
  ∃ t s', Transaction_init (PyUser ls) (PyUser ld) amt rsn s = (Ok t, s) ∧
    commit (set_self t s) = (Ok tt, s') ∧
    stored_balance (tables s') (uid os) = Some (row_balance r + amt) ∧
    (∀ u, u ≠ uid os → stored_balance (tables s') u = stored_balance (tables s) u).
Proof.
  intros Ha Hs Hd Hu Hr Hh.
  eexists. rewrite (Transaction_init_users ls ld amt rsn s Ha).
  set (t := {| _src := ls |}).
  destruct (commit_fresh (set_self t s) os od r r) as (s' & Hrun & Htb & _).
  - by repeat split.
  - repeat split; simpl; try done. by rewrite <- Hu.
  - done.
  - exists s'. split; [done|]. split; [done|]. rewrite Htb. simpl.
    split.
    + rewrite stored_balance_set_balance, users_set_balance. rewrite <- Hu.
      rewrite !decide_True by done. unfold insert_transaction. simpl.
      by rewrite Hr.
    + intros u Hne. rewrite !stored_balance_set_balance. rewrite <- Hu.
      by rewrite !decide_False by done.
Qed.

Lemma commit_self_transfer_adds_amount_witness :
  0 < 100 ∧
  heap self_transfer_start !! 0%nat = Some {| uid := 1; balance := 0 |} ∧
  users (tables self_transfer_start) !! 1
    = Some {| row_tid := 1001; row_balance := 1000 |} ∧
  healthy self_transfer_start ∧
  ∃ t s',
    Transaction_init (PyUser 0%nat) (PyUser 0%nat) 100 None self_transfer_start
      = (Ok t, self_transfer_start) ∧
    commit (set_self t self_transfer_start) = (Ok tt, s') ∧
    stored_balance (tables s') 1 = Some (1000 + 100) ∧
    (∀ u, u ≠ 1 →
       stored_balance (tables s') u = stored_balance (tables self_transfer_start) u).
Proof.
  assert (Hh : healthy self_transfer_start) by (intros n _; reflexivity).
  split; [lia|]. split; [reflexivity|]. split; [reflexivity|]. split; [exact Hh|].
  apply (commit_self_transfer_adds_amount 0 0 100 None self_transfer_start
           {| uid := 1; balance := 0 |} {| uid := 1; balance := 0 |}
           {| row_tid := 1001; row_balance := 1000 |});
    [lia | reflexivity | reflexivity | reflexivity | reflexivity | exact Hh].
Defined.

(** A store failure before the id of the entry has been read (calls 0
    to 3) leaves the transaction as the constructor made it: on a store
    that answers again, the next [commit] performs the whole commit. *)
Lemma commit_early_fault_retry s k os od rs rd :
  fresh (self s) → accounts_ready s os od rs rd →
  (k ≤ 3)%nat → fails_at k s →
  (∀ n, (k + calls s < n)%nat → fail s n = false) →
  ∃ s1 s2, commit s = (Raise OperationalError, s1) ∧
    tables s1 = tables s ∧
    commit s1 = (Ok tt, s2) ∧
    _committed (self s2) = true ∧
    ∃ e, transactions (tables s2) = transactions (tables s) ++ [e].
Proof.
  intros Hfr Hrdy Hk Hfail Hafter.
  destruct (commit_fault s k os od rs rd Hfr Hrdy ltac:(lia) Hfail)
    as (s1 & Hrun & Htb & Hself & Hconn & Hcalls & Hf & Hclk & Hheap).
  destruct Hrdy as (Hs & Hd & Hrs & Hrd).
  destruct (Hheap _ _ Hs) as (os' & Hs' & Hus).
  destruct (Hheap _ _ Hd) as (od' & Hd' & Hud).
  assert (Hk4 : (k <? 4)%nat = true) by (apply Nat.ltb_lt; lia).
  rewrite Hk4 in Hself.
  assert (Hself' : self s1 = self s).
  { rewrite Hself. destruct Hfr as (_ & Hi & _).
    destruct (self s); simpl in *; by subst. }
  destruct (commit_fresh s1 os' od' rs rd) as (s2 & Hrun2 & _).
  - by rewrite Hself'.
  - unfold accounts_ready. rewrite Hself', Htb, Hus, Hud. by repeat split.
  - intros n Hn. rewrite Hf. apply Hafter. lia.
  - exists s1, s2. split; [done|]. split; [done|]. split; [done|].
    assert (Hfr1 : fresh (self s1)) by by rewrite Hself'.
    destruct (commit_Ok_inv s1 s2 Hfr1 Hrun2) as (Hc2 & _ & _ & He & _).
    split; [done|]. by rewrite <- Htb.
Qed.

(** C2.  The claim: after a store failure before the atomic unit is
    finalized nothing is visible and a later [commit] on the same object
    performs the full commit.  The first half holds ([commit_fault]).
    The second fails when the store fails at one of the two [UPDATE]
    statements or at [connection.commit()] (calls 4 to 6): [_id] was
    assigned after the [INSERT], the guard of [commit] asks for
    [_id is None], and every later [commit] returns at once without a
    store call, on any store: the transaction stays uncommitted. *)
Theorem commit_late_fault_blocks_retry s k os od rs rd :
  fresh (self s) → accounts_ready s os od rs rd →
  (4 ≤ k ≤ 6)%nat → fails_at k s →
  ∃ s1, commit s = (Raise OperationalError, s1) ∧
    tables s1 = tables s ∧
    _committed (self s1) = false ∧
    _id (self s1) = Some (auto_increment (tables s)) ∧
    get (self s1) = None ∧
    ∀ s2, self s2 = self s1 → commit s2 = (Ok tt, s2).
Proof.
  intros Hfr Hrdy Hk Hfail.
  destruct (commit_fault s k os od rs rd Hfr Hrdy ltac:(lia) Hfail)
    as (s1 & Hrun & Htb & Hself & _).
  assert (Hk4 : (k <? 4)%nat = false) by (apply Nat.ltb_ge; lia).
  rewrite Hk4 in Hself. destruct Hfr as (Hc & Hi & Ha).
  exists s1. split; [done|]. split; [done|].
  assert (Hc1 : _committed (self s1) = false) by (by rewrite Hself).
  assert (Hi1 : _id (self s1) = Some (auto_increment (tables s))) by (by rewrite Hself).
  assert (Ha1 : 0 < _amount (self s1)) by (by rewrite Hself).
  repeat split; try done.
  - unfold get. by rewrite Hc1.
  - intros s2 Hs2. apply commit_guard_closed; rewrite Hs2; [done|].
    right. by rewrite Hi1.
Qed.

Lemma commit_late_fault_blocks_retry_witness :
  fresh (self transfer_pending_faulty) ∧
  accounts_ready transfer_pending_faulty
    {| uid := 1; balance := 0 |} {| uid := 2; balance := 0 |}
    {| row_tid := 1001; row_balance := 1000 |}
    {| row_tid := 1002; row_balance := 50 |} ∧
  (4 ≤ 4 ≤ 6)%nat ∧ fails_at 4 transfer_pending_faulty ∧
  ∃ s1, commit transfer_pending_faulty = (Raise OperationalError, s1) ∧
    tables s1 = tables transfer_pending_faulty ∧
    _committed (self s1) = false ∧
    _id (self s1) = Some 1 ∧
    get (self s1) = None ∧
    ∀ s2, self s2 = self s1 → commit s2 = (Ok tt, s2).
Proof.
  assert (Hfr : fresh (self transfer_pending_faulty))
    by (repeat split; reflexivity).
  assert (Hrdy : accounts_ready transfer_pending_faulty
                   {| uid := 1; balance := 0 |} {| uid := 2; balance := 0 |}
                   {| row_tid := 1001; row_balance := 1000 |}
                   {| row_tid := 1002; row_balance := 50 |})
    by (repeat split; reflexivity).
  assert (Hfail : fails_at 4 transfer_pending_faulty).
  { split; [reflexivity|]. intros j Hj. simpl.
    unfold fails_only_at. apply Nat.eqb_neq. lia. }
  split; [exact Hfr|]. split; [exact Hrdy|]. split; [lia|]. split; [exact Hfail|].
  apply (commit_late_fault_blocks_retry transfer_pending_faulty 4 _ _ _ _ Hfr Hrdy);
    [lia | exact Hfail].
Defined.

(** A successful commit of a fresh transaction has found its two user
    objects and their rows, and the store has answered its nine
    calls. *)
Lemma commit_Ok_ready s0 s1 :
  fresh (self s0) → commit s0 = (Ok tt, s1) →
  (∀ j, (j < 9)%nat → fail s0 (j + calls s0)%nat = false) ∧
  ∃ os od rs rd, accounts_ready s0 os od rs rd.
Proof.
  intros (Hc & Hi & Ha).
  destruct s0 as [t c h tb clk n f].
  destruct t as [src dst a rsn cm i]. simpl in *. subst cm i.
  unfold_commit. unfold accounts_ready. simpl.
  destruct (Z.ltb_spec a 0); [lia|].
  destruct (Z.eqb_spec a 0); [lia|].
  simpl.
  destruct (f n) eqn:H0; simpl; [discriminate|].
  destruct (h !! src) as [os|] eqn:Hs; simpl; [|discriminate].
  destruct (users tb !! uid os) as [rs|] eqn:Hrs; simpl; [|discriminate].
  destruct (f (S n)) eqn:H1; simpl; [discriminate|].
  destruct (decide (src = dst)) as [<-|Hne].
  - rewrite lookup_insert_eq. simpl. rewrite Hrs. simpl.
    repeat (match goal with
            | |- context [if ?f ?n then _ else _] => destruct (f n) eqn:?
            | |- context [match ?m !! ?k with _ => _ end] => destruct (m !! k) eqn:?
            end; unfold_setters; simpl; try discriminate).
    intros _. split; [|by exists os, os, rs, rs].
    intros j Hj. do 9 (destruct j as [|j]; [simpl; assumption|]). lia.
  - rewrite lookup_insert_ne by done.
    destruct (h !! dst) as [od|] eqn:Hd; simpl; [|discriminate].
    destruct (users tb !! uid od) as [rd|] eqn:Hrd; simpl; [|discriminate].
    repeat (match goal with
            | |- context [if ?f ?n then _ else _] => destruct (f n) eqn:?
            | |- context [match ?m !! ?k with _ => _ end] => destruct (m !! k) eqn:?
            end; unfold_setters; simpl; try discriminate).
    intros _. split; [|by exists os, od, rs, rd].
    intros j Hj. do 9 (destruct j as [|j]; [simpl; assumption|]). lia.
Qed.

(** The state a commit of a fresh transaction ends in when the store
    answers the nine calls of this commit, whatever it does later. *)
Lemma commit_answered s os od rs rd :
  fresh (self s) → accounts_ready s os od rs rd →
  (∀ j, (j < 9)%nat → fail s (j + calls s)%nat = false) →
  ∃ s', commit s = (Ok tt, s') ∧
    tables s' =
      set_balance (row_balance rd + _amount (self s)) (uid od)
        (set_balance (row_balance rs - _amount (self s)) (uid os)
           (insert_transaction (uid os) (uid od) (_amount (self s))
              (_reason (self s)) (clock s) (tables s))) ∧
    self s' = set_committed true (set_id (Some (auto_increment (tables s))) (self s)) ∧
    calls s' = (9 + calls s)%nat.
Proof.
  intros (Hc & Hi & Ha) (Hs & Hd & Hrs & Hrd) Hb.
  destruct s as [t c h tb clk n f].
  destruct t as [src dst a rsn cm i]. simpl in *. subst cm i.
  pose proof (Hb 0%nat ltac:(lia)) as H0; pose proof (Hb 1%nat ltac:(lia)) as H1;
  pose proof (Hb 2%nat ltac:(lia)) as H2; pose proof (Hb 3%nat ltac:(lia)) as H3;
  pose proof (Hb 4%nat ltac:(lia)) as H4; pose proof (Hb 5%nat ltac:(lia)) as H5;
  pose proof (Hb 6%nat ltac:(lia)) as H6; pose proof (Hb 7%nat ltac:(lia)) as H7;
  pose proof (Hb 8%nat ltac:(lia)) as H8. clear Hb. simpl in *.
  unfold_commit. simpl.
  destruct (Z.ltb_spec a 0); [lia|].
  destruct (Z.eqb_spec a 0); [lia|].
  destruct (decide (src = dst)) as [->|Hne]; [simplify_eq|
    destruct (decide (uid os = uid od)) as [Hu|Hu];
      [assert (rd = rs) by (rewrite Hu in Hrs; congruence); subst rd; clear Hrd|]];
    repeat run_step; simpl; (eexists; split; [reflexivity|]); simpl;
    unfold insert_transaction; repeat run_step; done.
Qed.

(** C3.  A second [commit] does nothing.  When the first [commit] of a
    transaction fresh from the constructor has returned, it has made its
    nine store calls, the ledger holds exactly one more entry, the entry
    of this transfer, and each balance has changed once: the receiver's
    stored balance is up by the amount, the sender's (another account)
    is down by the amount, and no other balance has moved.  The
    transaction is committed under the id of that entry.  [commit] in
    the state reached, or in any later state of the store, returns at
    once: the state, of which the tables and the count of store calls
    are part, is unchanged, so after the second call there is still one
    entry and one change of each balance, and [_committed] and [_id] are
    as they were. *)
Theorem commit_twice_is_once s0 s1 :
  fresh (self s0) → commit s0 = (Ok tt, s1) →
  _committed (self s1) = true ∧
  _id (self s1) = Some (auto_increment (tables s0)) ∧
  (∃ os od rs rd,
     accounts_ready s0 os od rs rd ∧
     transactions (tables s1)
       = transactions (tables s0) ++ [committed_entry s0 os od] ∧
     stored_balance (tables s1) (uid od)
       = Some (row_balance rd + _amount (self s0)) ∧
     (uid os ≠ uid od →
        stored_balance (tables s1) (uid os)
          = Some (row_balance rs - _amount (self s0))) ∧
     (∀ u, u ≠ uid os → u ≠ uid od →
        stored_balance (tables s1) u = stored_balance (tables s0) u)) ∧
  calls s1 = (9 + calls s0)%nat ∧
  commit s1 = (Ok tt, s1) ∧
  ∀ s2, self s2 = self s1 → commit s2 = (Ok tt, s2).
Proof.
  intros Hfr Hrun.
  destruct (commit_Ok_ready s0 s1 Hfr Hrun) as (Hans & os & od & rs & rd & Hrdy).
  destruct (commit_answered s0 os od rs rd Hfr Hrdy Hans)
    as (s' & Hrun' & Htb & Hself & Hcalls).
  rewrite Hrun in Hrun'. injection Hrun' as <-.
  destruct Hfr as (_ & _ & Hpos).
  assert (Hc : _committed (self s1) = true) by (by rewrite Hself).
  assert (Ha : _amount (self s1) = _amount (self s0)) by (by rewrite Hself).
  split; [done|]. split; [by rewrite Hself|]. split; [|split; [done|split]].
  - exists os, od, rs, rd. split; [done|].
    destruct Hrdy as (_ & _ & Hrs & Hrd). rewrite Htb.
    split; [|split; [|split]].
    + by rewrite !transactions_set_balance.
    + rewrite stored_balance_set_balance, decide_True by done.
      rewrite users_set_balance. unfold insert_transaction. simpl.
      case_decide as Hu; [by rewrite Hrs | by rewrite Hrd].
    + intros Hne.
      rewrite !stored_balance_set_balance, decide_False, decide_True by done.
      unfold insert_transaction. simpl. by rewrite Hrs.
    + intros u Hs Hd. by rewrite !stored_balance_set_balance, !decide_False by done.
  - apply commit_guard_closed; [lia | by left].
  - intros s2 Hs2. apply commit_guard_closed; rewrite Hs2; [lia | by left].
Qed.

Lemma commit_twice_is_once_witness :
  fresh (self transfer_pending) ∧
  commit transfer_pending = (Ok tt, transfer_committed) ∧
  _committed (self transfer_committed) = true ∧
  _id (self transfer_committed) = Some 1 ∧
  (∃ os od rs rd,
     accounts_ready transfer_pending os od rs rd ∧
     transactions (tables transfer_committed)
       = [] ++ [committed_entry transfer_pending os od] ∧
     stored_balance (tables transfer_committed) (uid od)
       = Some (row_balance rd + 100) ∧
     (uid os ≠ uid od →
        stored_balance (tables transfer_committed) (uid os)
          = Some (row_balance rs - 100)) ∧
     (∀ u, u ≠ uid os → u ≠ uid od →
        stored_balance (tables transfer_committed) u
          = stored_balance (tables transfer_pending) u)) ∧
  calls transfer_committed = 9%nat ∧
  commit transfer_committed = (Ok tt, transfer_committed) ∧
  (∀ s2, self s2 = self transfer_committed → commit s2 = (Ok tt, s2)) ∧
  stored_balance (tables transfer_committed) 1 = Some 900 ∧
  stored_balance (tables transfer_committed) 2 = Some 150 ∧
  length (transactions (tables transfer_committed)) = 1%nat.
Proof.
  assert (Hfr : fresh (self transfer_pending)) by (repeat split; reflexivity).
  assert (Hrun : commit transfer_pending = (Ok tt, transfer_committed))
    by (vm_compute; reflexivity).
  split; [exact Hfr|]. split; [exact Hrun|].
  destruct (commit_twice_is_once transfer_pending transfer_committed Hfr Hrun)
    as (Hc & Hi & Hmoved & Hcalls & Hagain & Hlater).
  split; [exact Hc|]. split; [exact Hi|]. split; [exact Hmoved|].
  split; [exact Hcalls|]. split; [exact Hagain|]. split; [exact Hlater|].
  split; [reflexivity|]. split; reflexivity.
Defined.

(** C6.  The constructor raises [ValueError] exactly when the amount is
    not positive (so for 0 and for -100, whatever the other arguments),
    raises [TypeError] exactly when the amount is positive and one of
    [src], [dst] is not a user object (the amount is tested first),
    returns an object exactly when all three are in order, and in every
    case leaves the state it ran in untouched. *)
Theorem Transaction_init_checks {S} (src dst : PyValue) amt rsn (s : S) :
  (Transaction_init src dst amt rsn s).2 = s ∧
  ((Transaction_init src dst amt rsn s).1 = Raise ValueError ↔ amt ≤ 0) ∧
  ((Transaction_init src dst amt rsn s).1 = Raise TypeError ↔
     0 < amt ∧ (is_user src = false ∨ is_user dst = false)) ∧
  ((∃ t, (Transaction_init src dst amt rsn s).1 = Ok t) ↔
     0 < amt ∧ is_user src = true ∧ is_user dst = true) ∧
  (Transaction_init src dst 0 rsn s).1 = Raise ValueError ∧
  (Transaction_init src dst (-100) rsn s).1 = Raise ValueError.
Proof.
  unfold Transaction_init, raise, mret, M_ret.
  destruct (Z.leb_spec amt 0) as [Hle|Hlt]; [|destruct src, dst]; simpl;
    repeat split; intros;
    repeat match goal with
           | H : ∃ _, _ |- _ => destruct H
           | H : _ ∧ _ |- _ => destruct H
           | H : _ ∨ _ |- _ => destruct H
           end;
    first [done | lia | by left | by right | by eexists].
Qed.

(** * Properties of [TransactionLog] *)

(** ** The queries *)

Lemma select_rows_sender u rows :
  select_rows (where_clause (WhereSender u)) rows = filter (λ e, sender e = u) rows.
Proof.
  induction rows as [|e rows IH]; [done|]. simpl.
  destruct (Z.eqb_spec (sender e) u).
  - by rewrite filter_cons_True, IH.
  - by rewrite filter_cons_False.
Qed.

Lemma select_rows_receiver u rows :
  select_rows (where_clause (WhereReceiver u)) rows = filter (λ e, receiver e = u) rows.
Proof.
  induction rows as [|e rows IH]; [done|]. simpl.
  destruct (Z.eqb_spec (receiver e) u).
  - by rewrite filter_cons_True, IH.
  - by rewrite filter_cons_False.
Qed.

Lemma select_rows_sender_or_receiver u rows :
  select_rows (where_clause (WhereSenderOrReceiver u)) rows =
    filter (λ e, sender e = u ∨ receiver e = u) rows.
Proof.
  induction rows as [|e rows IH]; [done|]. simpl.
  destruct (Z.eqb_spec (sender e) u), (Z.eqb_spec (receiver e) u); simpl;
    first [ rewrite filter_cons_True, IH by tauto; done
          | rewrite filter_cons_False by tauto; done ].
Qed.

Lemma mode_query_cases mode u :
  (mode < 0 ∧ mode_query mode u = WhereSender u) ∨
  (0 < mode ∧ mode_query mode u = WhereReceiver u) ∨
  (mode = 0 ∧ mode_query mode u = WhereSenderOrReceiver u).
Proof.
  unfold mode_query.
  destruct (Z.ltb_spec mode 0); [by left|].
  destruct (Z.ltb_spec 0 mode); [right; by left|].
  right; right. split; [lia|done].
Qed.

(** ** The two loops *)

Lemma recomputed_balance_nil u start : recomputed_balance u start [] = start.
Proof. unfold recomputed_balance. simpl. lia. Qed.

Lemma recomputed_balance_cons u start e log :
  recomputed_balance u start (e :: log) =
    recomputed_balance u (start + signed_amount u e) log.
Proof. unfold recomputed_balance. simpl. lia. Qed.

#[local] Arguments recomputed_balance : simpl never.

Lemma validate_loop_relevant u log start :
  Forall (relevant u) log →
  validate_loop u log start = Ok (recomputed_balance u start log).
Proof.
  intros H. revert start.
  induction H as [|e log He _ IH]; intros start; simpl.
  - by rewrite recomputed_balance_nil.
  - rewrite recomputed_balance_cons. unfold signed_amount.
    destruct (Z.eqb_spec (receiver e) u) as [Hr|Hr].
    + by rewrite IH, bool_decide_eq_true_2.
    + destruct (Z.eqb_spec (sender e) u) as [Hs|Hs].
      * by rewrite IH, bool_decide_eq_false_2, bool_decide_eq_true_2.
      * destruct He; contradiction.
Qed.

Lemma validate_loop_foreign u log start :
  Exists (foreign u) log → validate_loop u log start = Raise RuntimeError.
Proof.
  intros H. revert start.
  induction H as [e log [Hs Hr]|e log _ IH]; intros start; simpl.
  - destruct (Z.eqb_spec (receiver e) u); [done|].
    by destruct (Z.eqb_spec (sender e) u).
  - destruct (Z.eqb_spec (receiver e) u); [apply IH|].
    destruct (Z.eqb_spec (sender e) u); [apply IH|done].
Qed.

Lemma relevant_or_foreign u log :
  Forall (relevant u) log ∨ Exists (foreign u) log.
Proof.
  induction log as [|e log [IH|IH]].
  - by left.
  - destruct (decide (receiver e = u)); [left; constructor; [by left|done]|].
    destruct (decide (sender e = u)); [left; constructor; [by right|done]|].
    right. by left.
  - right. by right.
Qed.

Section RenderingProperties.

Variable get_name_from_uid : Z → string.
Variable strftime : bool → Z → string.
Variable format_amount : bool → Z → string.

Lemma to_string_loop_foreign u localized log :
  Exists (foreign u) log →
  to_string_loop get_name_from_uid strftime format_amount u localized log
    = Raise RuntimeError.
Proof.
  induction 1 as [e log [Hs Hr]|e log _ IH]; simpl.
  - destruct (Z.eqb_spec (receiver e) u); [done|].
    by destruct (Z.eqb_spec (sender e) u).
  - rewrite IH.
    destruct (Z.eqb_spec (receiver e) u); [done|].
    by destruct (Z.eqb_spec (sender e) u).
Qed.

End RenderingProperties.

(** ** The constructor *)

Lemma normalised_log (log : list Entry) :
  (if Z.of_nat (length log) =? 0 then [] else log) = log.
Proof. by destruct log. Qed.

Lemma rows_zero (log : list Entry) :
  (Z.of_nat (length log) =? 0) = bool_decide (log = []).
Proof. by destruct log. Qed.

Lemma tid_none tb u :
  bool_decide (get_tid_from_uid tb u = None) = negb (resolves tb u).
Proof.
  unfold resolves, get_tid_from_uid.
  by destruct (users tb !! u).
Qed.

Lemma resolves_known tb u : resolves tb u = bool_decide (is_Some (users tb !! u)).
Proof.
  unfold resolves, get_tid_from_uid. by destruct (users tb !! u).
Qed.

Lemma init_from_directional u mode log tb :
  mode ≠ 0 →
  TransactionLog_init_from u mode (Z.of_nat (length log), log) tb =
    Ok {| _uid := u; _mode := mode; _log := log;
          _valid := if bool_decide (log = []) && negb (resolves tb u)
                    then Some false else None |}.
Proof.
  intros Hm. unfold TransactionLog_init_from, validate, set_valid.
  rewrite normalised_log, rows_zero, tid_none. simpl.
  destruct (Z.eqb_spec mode 0); [done|]. simpl.
  by destruct (bool_decide (log = []) && negb (resolves tb u)).
Qed.

Lemma init_from_full_known u log tb row :
  users tb !! u = Some row →
  TransactionLog_init_from u 0 (Z.of_nat (length log), log) tb =
    match validate_loop u log 0 with
    | Ok b => Ok {| _uid := u; _mode := 0; _log := log;
                    _valid := Some (b =? row_balance row) |}
    | Raise e => Raise e
    end.
Proof.
  intros Hrow. unfold TransactionLog_init_from, validate, set_valid, MateBotUser.
  rewrite normalised_log, rows_zero, tid_none, resolves_known. simpl.
  rewrite Hrow. rewrite (bool_decide_eq_true_2 (is_Some (Some row))) by eauto.
  rewrite andb_false_r. simpl.
  by destruct (validate_loop u log 0).
Qed.

Lemma init_from_full_unknown u log tb :
  users tb !! u = None →
  TransactionLog_init_from u 0 (Z.of_nat (length log), log) tb =
    if bool_decide (log = [])
    then Ok {| _uid := u; _mode := 0; _log := log; _valid := Some false |}
    else Raise DataError.
Proof.
  intros Hrow. unfold TransactionLog_init_from, validate, set_valid, MateBotUser.
  rewrite normalised_log, rows_zero, tid_none, resolves_known. simpl.
  rewrite Hrow. rewrite (bool_decide_eq_false_2 (is_Some None)) by (intros [? ?]; done).
  rewrite andb_true_r. by destruct (bool_decide (log = [])).
Qed.

Lemma init_fetched h tb u mode :
  TransactionLog_init h tb (PyInt u) mode =
    let log := select_rows (where_clause (mode_query mode u)) (transactions tb) in
    TransactionLog_init_from u mode (Z.of_nat (length log), log) tb.
Proof. done. Qed.

(** The verdict of a constructed log of mode 0. *)
Lemma init_from_full_valid tb u log r :
  TransactionLog_init_from u 0 (Z.of_nat (length log), log) tb = Ok r →
  _log r = log ∧
  _valid r =
    Some ((resolves tb u || bool_decide (log ≠ [])) &&
          bool_decide (stored_balance tb u = Some (recomputed_balance u 0 log))).
Proof.
  destruct (users tb !! u) as [row|] eqn:Hrow.
  - rewrite (init_from_full_known _ _ _ _ Hrow).
    destruct (relevant_or_foreign u log) as [Hrel|Hfor].
    + rewrite (validate_loop_relevant _ _ _ Hrel). intros [= <-]. simpl.
      split; [done|]. f_equal.
      rewrite resolves_known, Hrow, bool_decide_eq_true_2 by eauto. simpl.
      unfold stored_balance. rewrite Hrow. simpl.
      destruct (Z.eqb_spec (recomputed_balance u 0 log) (row_balance row)) as [->|Hne].
      * by rewrite bool_decide_eq_true_2.
      * rewrite bool_decide_eq_false_2; [done|]. intros [= ?]. congruence.
    + by rewrite (validate_loop_foreign _ _ _ Hfor).
  - rewrite (init_from_full_unknown _ _ _ Hrow).
    destruct log as [|e log]; simpl; [|done].
    intros [= <-]. simpl. split; [done|]. f_equal.
    by rewrite resolves_known, Hrow, bool_decide_eq_false_2 by (intros [? ?]; done).
Qed.

Lemma init_from_log u mode log tb r :
  TransactionLog_init_from u mode (Z.of_nat (length log), log) tb = Ok r →
  _log r = log.
Proof.
  destruct (decide (mode = 0)) as [->|Hm].
  - destruct (users tb !! u) as [row|] eqn:Hrow.
    + rewrite (init_from_full_known _ _ _ _ Hrow).
      destruct (validate_loop u log 0); [|done]. by intros [= <-].
    + rewrite (init_from_full_unknown _ _ _ Hrow).
      destruct (bool_decide (log = [])); [|done]. by intros [= <-].
  - rewrite (init_from_directional _ _ _ _ Hm). by intros [= <-].
Qed.

Lemma fetched_relevant u rows :
  Forall (relevant u) (filter (λ e, sender e = u ∨ receiver e = u) rows).
Proof.
  apply Forall_forall. intros e [He _]%list_elem_of_filter.
  unfold relevant. tauto.
Qed.

(** The count of [validate] and the fold of the spec differ by the
    entries that name the account on both sides: the spec's fold adds
    and subtracts their amount, the loop adds it. *)
Lemma recomputed_balance_claimed u start log :
  recomputed_balance u start log =
    claimed_balance u start log + sum_amounts (self_entries u log).
Proof.
  unfold recomputed_balance, claimed_balance, self_entries, sum_amounts.
  induction log as [|e log IH]; [simpl; lia|].
  rewrite filter_cons. cbn [foldr]. unfold signed_amount, claimed_amount in *.
  destruct (decide (sender e = u ∧ receiver e = u)) as [[Hs Hr]|Hn];
    cbn [foldr]; repeat case_bool_decide; first [lia | exfalso; tauto].
Qed.

(** C4.  The claim: in mode 0 the recomputed balance is the fold that
    adds the amount where the account is the receiver and subtracts it
    where the account is the sender, and [_valid] is "the account
    resolves or the history is not empty" and "the recomputed balance
    is the stored one".  The loop of [validate] tests the sender in an
    [elif]: what it computes is that fold plus the amounts of the
    entries that name the account on both sides, which the fold of the
    claim adds and subtracts and the loop only adds.  On a history
    without such an entry the claim holds, the entries
    [(receiver, +500), (sender, -200)] give 300 and the log is valid
    exactly when the store holds 300; the constructor returns for
    every account the store holds, and for an unknown account without
    history it returns a log that is not valid.  For a single entry
    from the account to itself the fold of the claim is the baseline,
    the loop returns the baseline plus the amount, and the log is
    marked valid exactly when the store holds the amount. *)
Theorem validate_counts_self_entry_as_received tb u :
  (∀ log start v row,
     Forall (relevant u) log → users tb !! u = Some row →
     validate {| _uid := u; _mode := 0; _log := log; _valid := v |} start tb
       = Ok (Some (claimed_balance u start log + sum_amounts (self_entries u log)
                     =? row_balance row))) ∧
  (∀ log r,
     TransactionLog_init_from u 0 (Z.of_nat (length log), log) tb = Ok r →
     _log r = log ∧
     _valid r =
       Some ((resolves tb u || bool_decide (log ≠ [])) &&
             bool_decide (stored_balance tb u =
                            Some (claimed_balance u 0 log
                                  + sum_amounts (self_entries u log))))) ∧
  (∀ log row,
     Forall (relevant u) log → users tb !! u = Some row →
     ∃ r, TransactionLog_init_from u 0 (Z.of_nat (length log), log) tb = Ok r) ∧
  (users tb !! u = None →
     TransactionLog_init_from u 0 (0, []) tb
       = Ok {| _uid := u; _mode := 0; _log := []; _valid := Some false |}) ∧
  (∀ h row,
     users tb !! u = Some row →
     ∃ r, TransactionLog_init h tb (PyInt u) 0 = Ok r) ∧
  (∀ h,
     users tb !! u = None →
     filter (λ e, sender e = u ∨ receiver e = u) (transactions tb) = [] →
     TransactionLog_init h tb (PyInt u) 0
       = Ok {| _uid := u; _mode := 0; _log := []; _valid := Some false |}) ∧
  (∀ e1 e2 row,
     receiver e1 = u → sender e1 ≠ u → amount e1 = 500 →
     sender e2 = u → receiver e2 ≠ u → amount e2 = 200 →
     users tb !! u = Some row →
     claimed_balance u 0 [e1; e2] = 300 ∧
     ∃ r, TransactionLog_init_from u 0 (2, [e1; e2]) tb = Ok r ∧
          (_valid r = Some true ↔ row_balance row = 300) ∧
          (_valid r = Some false ↔ row_balance row ≠ 300)) ∧
  (∀ e row,
     sender e = u → receiver e = u → users tb !! u = Some row →
     (∀ start, claimed_balance u start [e] = start) ∧
     (∀ start v,
        validate {| _uid := u; _mode := 0; _log := [e]; _valid := v |} start tb
          = Ok (Some (start + amount e =? row_balance row))) ∧
     ∃ r, TransactionLog_init_from u 0 (1, [e]) tb = Ok r ∧
          (_valid r = Some true ↔ row_balance row = amount e)).
Proof.
  split; [|split; [|split; [|split; [|split; [|split; [|split]]]]]].
  - intros log start v row Hrel Hrow. unfold validate, MateBotUser. simpl.
    by rewrite Hrow, validate_loop_relevant, recomputed_balance_claimed.
  - intros log r Hinit. rewrite <- recomputed_balance_claimed.
    by apply init_from_full_valid.
  - intros log row Hrel Hrow.
    rewrite (init_from_full_known _ _ _ _ Hrow), (validate_loop_relevant _ _ _ Hrel).
    eauto.
  - intros Hrow. change 0 with (Z.of_nat (length (@nil Entry))) at 2.
    by rewrite (init_from_full_unknown _ _ _ Hrow).
  - intros h row Hrow. rewrite init_fetched. cbv zeta.
    change (mode_query 0 u) with (WhereSenderOrReceiver u).
    rewrite select_rows_sender_or_receiver.
    rewrite (init_from_full_known _ _ _ _ Hrow),
      (validate_loop_relevant _ _ _ (fetched_relevant u (transactions tb))).
    eauto.
  - intros h Hrow Hnone. rewrite init_fetched. cbv zeta.
    change (mode_query 0 u) with (WhereSenderOrReceiver u).
    rewrite select_rows_sender_or_receiver, Hnone.
    by rewrite (init_from_full_unknown _ _ _ Hrow).
  - intros e1 e2 row Hr1 Hs1 Ha1 Hs2 Hr2 Ha2 Hrow.
    assert (Hrel : Forall (relevant u) [e1; e2]).
    { constructor; [by left|]. constructor; [by right|]. constructor. }
    assert (Hsum : claimed_balance u 0 [e1; e2] = 300).
    { unfold claimed_balance, claimed_amount. cbn [foldr].
      rewrite (bool_decide_eq_true_2 _ Hr1), (bool_decide_eq_false_2 _ Hs1),
        (bool_decide_eq_false_2 _ Hr2), (bool_decide_eq_true_2 _ Hs2). lia. }
    assert (Hself : sum_amounts (self_entries u [e1; e2]) = 0).
    { unfold self_entries.
      rewrite (filter_cons_False (λ e, sender e = u ∧ receiver e = u)) by tauto.
      rewrite (filter_cons_False (λ e, sender e = u ∧ receiver e = u)) by tauto.
      done. }
    split; [done|].
    change 2 with (Z.of_nat (length [e1; e2])).
    rewrite (init_from_full_known _ _ _ _ Hrow), (validate_loop_relevant _ _ _ Hrel).
    rewrite recomputed_balance_claimed, Hsum, Hself.
    eexists. split; [done|]. cbn [_valid].
    destruct (Z.eqb_spec (300 + 0) (row_balance row)); split; split; intros;
      first [done | lia | exfalso; lia].
  - intros e row Hs Hr Hrow.
    assert (Hrel : Forall (relevant u) [e]) by (constructor; [by left|constructor]).
    assert (Hcode : ∀ start, recomputed_balance u start [e] = start + amount e).
    { intros start. unfold recomputed_balance, signed_amount. cbn [foldr].
      rewrite (bool_decide_eq_true_2 _ Hr). lia. }
    split; [|split].
    + intros start. unfold claimed_balance, claimed_amount. cbn [foldr].
      rewrite (bool_decide_eq_true_2 _ Hr), (bool_decide_eq_true_2 _ Hs). lia.
    + intros start v.
      pose proof (validate_loop_relevant u [e] start Hrel) as Hloop.
      rewrite Hcode in Hloop. unfold validate, MateBotUser.
      cbn -[validate_loop Z.eqb Z.add]. rewrite Hrow.
      cbn -[validate_loop Z.eqb Z.add]. by rewrite Hloop.
    + change 1 with (Z.of_nat (length [e])).
      rewrite (init_from_full_known _ _ _ _ Hrow), (validate_loop_relevant _ _ _ Hrel).
      rewrite Hcode. eexists. split; [done|]. cbn [_valid].
      destruct (Z.eqb_spec (0 + amount e) (row_balance row)); split; intros;
        first [done | lia | exfalso; lia].
Qed.

Lemma validate_counts_self_entry_as_received_witness :
  users self_transfer_ledger !! 1 = Some {| row_tid := 1001; row_balance := 100 |} ∧
  sender self_transfer_100 = 1 ∧ receiver self_transfer_100 = 1 ∧
  (∀ start, claimed_balance 1 start [self_transfer_100] = start) ∧
  (∀ start v,
     validate {| _uid := 1; _mode := 0; _log := [self_transfer_100]; _valid := v |}
       start self_transfer_ledger
     = Ok (Some (start + 100 =? 100))) ∧
  (∃ r, TransactionLog_init_from 1 0 (1, [self_transfer_100]) self_transfer_ledger = Ok r ∧
        (_valid r = Some true ↔ 100 = 100)) ∧
  TransactionLog_init ∅ self_transfer_ledger (PyInt 1) 0
    = Ok {| _uid := 1; _mode := 0; _log := [self_transfer_100]; _valid := Some true |} ∧
  claimed_balance 1 0 [received_500; sent_200] = 300 ∧
  (∃ r, TransactionLog_init_from 1 0 (2, [received_500; sent_200]) (example_ledger 300) = Ok r ∧
        (_valid r = Some true ↔ 300 = 300) ∧ (_valid r = Some false ↔ 300 ≠ 300)) ∧
  (∃ r, TransactionLog_init_from 1 0 (2, [received_500; sent_200]) (example_ledger 250) = Ok r ∧
        (_valid r = Some true ↔ 250 = 300) ∧ (_valid r = Some false ↔ 250 ≠ 300)).
Proof.
  pose proof (validate_counts_self_entry_as_received self_transfer_ledger 1)
    as (_ & _ & _ & _ & _ & _ & _ & Hself).
  pose proof (validate_counts_self_entry_as_received (example_ledger 300) 1)
    as (_ & _ & _ & _ & _ & _ & H300 & _).
  pose proof (validate_counts_self_entry_as_received (example_ledger 250) 1)
    as (_ & _ & _ & _ & _ & _ & H250 & _).
  specialize (Hself self_transfer_100 {| row_tid := 1001; row_balance := 100 |}
                eq_refl eq_refl eq_refl).
  specialize (H300 received_500 sent_200 {| row_tid := 1001; row_balance := 300 |}
                eq_refl ltac:(simpl; lia) eq_refl eq_refl ltac:(simpl; lia) eq_refl eq_refl).
  specialize (H250 received_500 sent_200 {| row_tid := 1001; row_balance := 250 |}
                eq_refl ltac:(simpl; lia) eq_refl eq_refl ltac:(simpl; lia) eq_refl eq_refl).
  destruct Hself as (Hclaim & Hcode & Hinit).
  destruct H300 as [Hsum H300]. destruct H250 as [_ H250].
  split; [reflexivity|]. split; [reflexivity|]. split; [reflexivity|].
  split; [exact Hclaim|]. split; [exact Hcode|]. split; [exact Hinit|].
  split; [reflexivity|]. split; [exact Hsum|]. split; [exact H300 | exact H250].
Defined.

Lemma length_filter_either u (rows : list Entry) :
  Forall (λ e, ¬ (sender e = u ∧ receiver e = u)) rows →
  length (filter (λ e, sender e = u ∨ receiver e = u) rows) =
    (length (filter (λ e, sender e = u) rows) +
     length (filter (λ e, receiver e = u) rows))%nat.
Proof.
  induction 1 as [|e rows He _ IH]; [done|].
  destruct (decide (sender e = u)) as [Hs|Hs], (decide (receiver e = u)) as [Hr|Hr].
  - tauto.
  - rewrite (filter_cons_True (λ e, sender e = u ∨ receiver e = u)) by tauto.
    rewrite (filter_cons_True (λ e, sender e = u)) by done.
    rewrite (filter_cons_False (λ e, receiver e = u)) by done.
    simpl. by rewrite IH.
  - rewrite (filter_cons_True (λ e, sender e = u ∨ receiver e = u)) by tauto.
    rewrite (filter_cons_False (λ e, sender e = u)) by done.
    rewrite (filter_cons_True (λ e, receiver e = u)) by done.
    simpl. rewrite IH. lia.
  - by rewrite !filter_cons_False by tauto.
Qed.

(** C5.  The log a constructor call returns holds, in the order of the
    table, exactly the entries with the account as sender when the mode
    is negative, as receiver when it is positive, as sender or receiver
    when it is 0.  The call returns a log for every non-zero mode, and
    for mode 0 whenever the store holds the account.  When the account
    is the sender of one entry and the receiver of another one, the log
    has one entry in a non-zero mode and two in mode 0. *)
Theorem TransactionLog_init_fetches h tb u mode :
  (∀ r, TransactionLog_init h tb (PyInt u) mode = Ok r →
     (mode < 0 → _log r = filter (λ e, sender e = u) (transactions tb)) ∧
     (0 < mode → _log r = filter (λ e, receiver e = u) (transactions tb)) ∧
     (mode = 0 →
        _log r = filter (λ e, sender e = u ∨ receiver e = u) (transactions tb))) ∧
  (mode ≠ 0 ∨ is_Some (users tb !! u) →
     ∃ r, TransactionLog_init h tb (PyInt u) mode = Ok r) ∧
  (length (filter (λ e, sender e = u) (transactions tb)) = 1%nat →
   length (filter (λ e, receiver e = u) (transactions tb)) = 1%nat →
   Forall (λ e, ¬ (sender e = u ∧ receiver e = u)) (transactions tb) →
   ∀ r, TransactionLog_init h tb (PyInt u) mode = Ok r →
        length (_log r) = if decide (mode = 0) then 2%nat else 1%nat).
Proof.
  rewrite init_fetched. cbv zeta.
  assert (Hlog : ∀ r,
    TransactionLog_init_from u mode
      (Z.of_nat (length (select_rows (where_clause (mode_query mode u)) (transactions tb))),
       select_rows (where_clause (mode_query mode u)) (transactions tb)) tb = Ok r →
    (mode < 0 → _log r = filter (λ e, sender e = u) (transactions tb)) ∧
    (0 < mode → _log r = filter (λ e, receiver e = u) (transactions tb)) ∧
    (mode = 0 →
       _log r = filter (λ e, sender e = u ∨ receiver e = u) (transactions tb))).
  { intros r Hr. rewrite (init_from_log _ _ _ _ _ Hr).
    destruct (mode_query_cases mode u) as [[Hm ->]|[[Hm ->]|[Hm ->]]].
    - rewrite select_rows_sender. repeat split; intros; first [done | lia].
    - rewrite select_rows_receiver. repeat split; intros; first [done | lia].
    - rewrite select_rows_sender_or_receiver. repeat split; intros; first [done | lia]. }
  split; [exact Hlog|]. split.
  - intros [Hm|[row Hrow]].
    + rewrite (init_from_directional _ _ _ _ Hm). eauto.
    + destruct (decide (mode = 0)) as [->|Hm].
      * rewrite (init_from_full_known _ _ _ _ Hrow).
        change (mode_query 0 u) with (WhereSenderOrReceiver u).
        rewrite select_rows_sender_or_receiver.
        rewrite (validate_loop_relevant _ _ _ (fetched_relevant u _)). eauto.
      * rewrite (init_from_directional _ _ _ _ Hm). eauto.
  - intros Hs Hr Hself r Hinit.
    destruct (Hlog r Hinit) as (Hneg & Hpos & Hzero).
    case_decide as Hm.
    + rewrite (Hzero Hm), (length_filter_either _ _ Hself), Hs, Hr. done.
    + destruct (Z.lt_total mode 0) as [Hlt|[?|Hgt]]; [|done|].
      * by rewrite (Hneg Hlt).
      * by rewrite (Hpos Hgt).
Qed.

Lemma TransactionLog_init_fetches_witness :
  (∃ r, TransactionLog_init ∅ (example_ledger 300) (PyInt 1) (-1) = Ok r ∧
        _log r = [sent_200] ∧ length (_log r) = 1%nat) ∧
  (∃ r, TransactionLog_init ∅ (example_ledger 300) (PyInt 1) 1 = Ok r ∧
        _log r = [received_500] ∧ length (_log r) = 1%nat) ∧
  (∃ r, TransactionLog_init ∅ (example_ledger 300) (PyInt 1) 0 = Ok r ∧
        _log r = [received_500; sent_200] ∧ length (_log r) = 2%nat).
Proof.
  assert (Hs : length (filter (λ e, sender e = 1) (transactions (example_ledger 300))) = 1%nat)
    by reflexivity.
  assert (Hr : length (filter (λ e, receiver e = 1) (transactions (example_ledger 300))) = 1%nat)
    by reflexivity.
  assert (Hself : Forall (λ e, ¬ (sender e = 1 ∧ receiver e = 1))
                    (transactions (example_ledger 300))).
  { repeat constructor; simpl; intros [? ?]; lia. }
  split; [|split].
  - destruct (TransactionLog_init_fetches ∅ (example_ledger 300) 1 (-1))
      as (Hlog & Hex & Hlen).
    destruct (Hex ltac:(left; lia)) as [r Hinit].
    exists r. split; [exact Hinit|]. split.
    + exact (proj1 (Hlog r Hinit) ltac:(lia)).
    + exact (Hlen Hs Hr Hself r Hinit).
  - destruct (TransactionLog_init_fetches ∅ (example_ledger 300) 1 1)
      as (Hlog & Hex & Hlen).
    destruct (Hex ltac:(left; lia)) as [r Hinit].
    exists r. split; [exact Hinit|]. split.
    + exact (proj1 (proj2 (Hlog r Hinit)) ltac:(lia)).
    + exact (Hlen Hs Hr Hself r Hinit).
  - destruct (TransactionLog_init_fetches ∅ (example_ledger 300) 1 0)
      as (Hlog & Hex & Hlen).
    destruct (Hex ltac:(right; eexists; reflexivity)) as [r Hinit].
    exists r. split; [exact Hinit|]. split.
    + exact (proj2 (proj2 (Hlog r Hinit)) eq_refl).
    + exact (Hlen Hs Hr Hself r Hinit).
Defined.

Lemma filter_foreign_nil u (rows : list Entry) :
  Forall (foreign u) rows →
  filter (λ e, sender e = u ∨ receiver e = u) rows = [].
Proof.
  induction 1 as [|e rows [Hs Hr] _ IH]; [done|].
  by rewrite filter_cons_False by tauto.
Qed.

(** C7, as the code has it.  For an account the store holds and that no
    entry names, the log of mode 0 is empty and renders as the empty
    string; it is valid exactly when the stored balance is the baseline
    0, since nothing but the baseline is there to explain a balance. *)
Theorem empty_history_known_account h tb u row
    (get_name_from_uid : Z → string) (strftime format_amount : bool → Z → string)
    (localized : bool) :
  users tb !! u = Some row →
  Forall (foreign u) (transactions tb) →
  ∃ r, TransactionLog_init h tb (PyInt u) 0 = Ok r ∧
       _log r = [] ∧
       _valid r = Some (0 =? row_balance row) ∧
       (_valid r = Some true ↔ row_balance row = 0) ∧
       to_string get_name_from_uid strftime format_amount r localized = Ok EmptyString.
Proof.
  intros Hrow Hnone.
  rewrite init_fetched. cbv zeta.
  change (mode_query 0 u) with (WhereSenderOrReceiver u).
  rewrite select_rows_sender_or_receiver, (filter_foreign_nil _ _ Hnone).
  rewrite (init_from_full_known _ _ _ _ Hrow). cbn [validate_loop].
  eexists. split; [done|]. cbn [_log _valid].
  split; [done|]. split; [done|]. split; [|done].
  destruct (Z.eqb_spec 0 (row_balance row)); split; intros;
    first [done | lia | exfalso; lia].
Qed.

Lemma empty_history_known_account_witness :
  users untouched_account_tables !! 5 = Some {| row_tid := 1005; row_balance := 0 |} ∧
  Forall (foreign 5) (transactions untouched_account_tables) ∧
  ∃ r, TransactionLog_init ∅ untouched_account_tables (PyInt 5) 0 = Ok r ∧
       _log r = [] ∧
       _valid r = Some true ∧
       (_valid r = Some true ↔ 0 = 0) ∧
       to_string no_name no_time no_amount r true = Ok EmptyString.
Proof.
  assert (Hnone : Forall (foreign 5) (transactions untouched_account_tables)).
  { constructor; [split; simpl; lia | constructor]. }
  split; [reflexivity|]. split; [exact Hnone|].
  exact (empty_history_known_account ∅ untouched_account_tables 5
           {| row_tid := 1005; row_balance := 0 |} no_name no_time no_amount true
           eq_refl Hnone).
Defined.

(** C7, as the claim has it, fails: account 1 of the example store
    resolves and no entry names it, but it holds 1000 cents, and the log
    of mode 0 is not valid. *)
Lemma empty_history_known_account_not_valid :
  is_Some (get_tid_from_uid example_tables 1) ∧
  execute (mode_query 0 1) example_tables = (0, []) ∧
  ∃ r, TransactionLog_init ∅ example_tables (PyInt 1) 0 = Ok r ∧
       _valid r = Some false ∧ _valid r ≠ Some true.
Proof.
  split; [by eexists|]. split; [reflexivity|].
  eexists. split; [reflexivity|]. split; [reflexivity|]. discriminate.
Qed.

(** C8, as the code has it.  With an entry in the snapshot that names
    the account on neither side, [to_string] raises [RuntimeError] in
    every mode.  In mode 0 [validate] raises too, and with it the
    constructor: [RuntimeError] when the store holds the account, and
    the [DataError] of the balance read, which comes first, when it does
    not.  In a non-zero mode [validate] returns [None] before it looks
    at the snapshot, and the constructor returns the log. *)
Theorem foreign_entry_aborts tb u log
    (get_name_from_uid : Z → string) (strftime format_amount : bool → Z → string) :
  Exists (foreign u) log →
  (∀ mode v localized,
     to_string get_name_from_uid strftime format_amount
       {| _uid := u; _mode := mode; _log := log; _valid := v |} localized
     = Raise RuntimeError) ∧
  (∀ v start,
     validate {| _uid := u; _mode := 0; _log := log; _valid := v |} start tb
     = Raise (if users tb !! u is Some _ then RuntimeError else DataError)) ∧
  TransactionLog_init_from u 0 (Z.of_nat (length log), log) tb
     = Raise (if users tb !! u is Some _ then RuntimeError else DataError) ∧
  (∀ mode v start,
     mode ≠ 0 →
     validate {| _uid := u; _mode := mode; _log := log; _valid := v |} start tb
     = Ok None) ∧
  (∀ mode, mode ≠ 0 →
     ∃ r, TransactionLog_init_from u mode (Z.of_nat (length log), log) tb = Ok r ∧
          _log r = log ∧ _valid r = None).
Proof.
  intros Hfor. split; [|split; [|split; [|split]]].
  - intros mode v localized. unfold to_string. simpl.
    by rewrite (to_string_loop_foreign _ _ _ _ _ _ Hfor).
  - intros v start. unfold validate, MateBotUser. simpl.
    destruct (users tb !! u); simpl; [|done].
    by rewrite (validate_loop_foreign _ _ _ Hfor).
  - destruct (users tb !! u) as [row|] eqn:Hrow.
    + by rewrite (init_from_full_known _ _ _ _ Hrow), (validate_loop_foreign _ _ _ Hfor).
    + rewrite (init_from_full_unknown _ _ _ Hrow).
      rewrite bool_decide_eq_false_2; [done|]. intros ->. by apply Exists_nil in Hfor.
  - intros mode v start Hm. unfold validate. simpl.
    by destruct (Z.eqb_spec mode 0).
  - intros mode Hm. rewrite (init_from_directional _ _ _ _ Hm).
    eexists. split; [done|]. split; [done|]. simpl.
    rewrite bool_decide_eq_false_2; [done|]. intros ->. by apply Exists_nil in Hfor.
Qed.

Lemma foreign_entry_aborts_witness :
  Exists (foreign 1) [received_500; between_2_and_3] ∧
  to_string no_name no_time no_amount
    {| _uid := 1; _mode := 0; _log := [received_500; between_2_and_3];
       _valid := None |} true = Raise RuntimeError ∧
  validate {| _uid := 1; _mode := 0; _log := [received_500; between_2_and_3];
              _valid := None |} 0 (example_ledger 300) = Raise RuntimeError ∧
  TransactionLog_init_from 1 0 (2, [received_500; between_2_and_3]) (example_ledger 300)
    = Raise RuntimeError.
Proof.
  assert (Hfor : Exists (foreign 1) [received_500; between_2_and_3]).
  { right. left. split; simpl; lia. }
  split; [exact Hfor|].
  destruct (foreign_entry_aborts (example_ledger 300) 1 [received_500; between_2_and_3]
              no_name no_time no_amount Hfor) as (Hs & Hv & Hi & _).
  split; [exact (Hs 0 None true)|]. split; [exact (Hv None 0) | exact Hi].
Defined.

(** C8, as the claim has it, fails: a log of mode 1 whose snapshot holds
    an entry between two other accounts is constructed, and its
    validation pass returns [None] instead of aborting. *)
Lemma directional_validate_skips_foreign_entry :
  foreign 1 between_2_and_3 ∧
  TransactionLog_init_from 1 1 (1, [between_2_and_3]) example_tables
    = Ok {| _uid := 1; _mode := 1; _log := [between_2_and_3]; _valid := None |} ∧
  validate {| _uid := 1; _mode := 1; _log := [between_2_and_3]; _valid := None |}
    0 example_tables = Ok None.
Proof.
  split; [split; simpl; lia|]. split; reflexivity.
Qed.

(** ** The machine-readable rendering *)

(** C9.  The claim: [to_json] returns one row per fetched entry, with
    the stored amount and reason ([None] stays [None]) and with the
    stored instant turned into whole seconds since the epoch, from
    which the stored instant is found again.  The rows and their
    fields are as claimed, whatever [timestamp] does.  The seconds are
    not: the stored value has no time zone, [to_string] takes it as a
    reading in UTC, and [timestamp()] takes it as a reading in the
    local zone of the process.  For a stored value of whole seconds,
    in a process whose zone is [offset] seconds ahead of UTC at that
    time, the row holds the seconds of the stored instant less
    [offset], and the instant found again from them is the stored one
    exactly when the offset is 0. *)
Theorem to_json_reads_registered_as_local_time (timestamp : Z → Z) self :
  length (to_json timestamp self) = length (_log self) ∧
  (∀ i entry,
     _log self !! i = Some entry →
     ∃ row,
       to_json timestamp self !! i = Some row ∧
       json_id row = entry_id entry ∧
       json_sender row = sender entry ∧
       json_receiver row = receiver entry ∧
       json_amount row = amount entry ∧
       json_reason row = reason entry ∧
       json_registered row = timestamp (registered entry)) ∧
  (∀ i entry seconds offset,
     _log self !! i = Some entry →
     registered entry = instant_of_epoch seconds →
     timestamp (registered entry) = seconds - offset →
     ∃ row,
       to_json timestamp self !! i = Some row ∧
       json_registered row = seconds - offset ∧
       instant_of_epoch (json_registered row)
         = registered entry - offset * 1000000 ∧
       (instant_of_epoch (json_registered row) = registered entry ↔ offset = 0)).
Proof.
  unfold to_json. split; [by rewrite length_map|]. split.
  - intros i entry Hi. eexists. split.
    + change (map ?f ?l) with (f <$> l). by rewrite list_lookup_fmap, Hi.
    + done.
  - intros i entry seconds offset Hi Hreg Hlocal. eexists. split.
    + change (map ?f ?l) with (f <$> l). by rewrite list_lookup_fmap, Hi.
    + cbn [json_registered]. rewrite Hlocal, Hreg. unfold instant_of_epoch.
      repeat split; intros; lia.
Qed.

Lemma to_json_reads_registered_as_local_time_witness :
  [received_500; sent_200] !! 0%nat = Some received_500 ∧
  registered received_500 = instant_of_epoch 1600000000 ∧
  timestamp_in_zone 7200 (registered received_500) = 1600000000 - 7200 ∧
  ∃ row,
    to_json (timestamp_in_zone 7200)
      {| _uid := 1; _mode := 0; _log := [received_500; sent_200];
         _valid := Some true |} !! 0%nat = Some row ∧
    json_registered row = 1599992800 ∧
    instant_of_epoch (json_registered row) = registered received_500 - 7200 * 1000000 ∧
    instant_of_epoch (json_registered row) ≠ registered received_500.
Proof.
  split; [reflexivity|]. split; [reflexivity|]. split; [reflexivity|].
  destruct (to_json_reads_registered_as_local_time (timestamp_in_zone 7200)
              {| _uid := 1; _mode := 0; _log := [received_500; sent_200];
                 _valid := Some true |}) as (_ & _ & Hlocal).
  destruct (Hlocal 0%nat received_500 1600000000 7200 eq_refl eq_refl eq_refl)
    as (row & Hrow & Hsec & Hback & Hiff).
  exists row. split; [exact Hrow|]. split; [exact Hsec|]. split; [exact Hback|].
  intros Heq. apply Hiff in Heq. discriminate Heq.
Defined.

(** ** Logs of one direction *)

Lemma TransactionLog_init_user h tb l o mode :
  h !! l = Some o →
  TransactionLog_init h tb (PyUser l) mode = TransactionLog_init h tb (PyInt (uid o)) mode.
Proof. intros Hl. unfold TransactionLog_init. by rewrite Hl. Qed.

(** C10.  A log constructed with a non-zero mode is never marked valid:
    [_valid] is [None] when the account resolves or the query returned a
    row, and [False] when the account does not resolve and the query
    returned no row.  The constructor always returns such a log. *)
Theorem directional_log_has_no_verdict h tb u mode :
  mode ≠ 0 →
  ∃ r, TransactionLog_init h tb (PyInt u) mode = Ok r ∧
       _valid r ≠ Some true ∧
       (resolves tb u = true ∨ (execute (mode_query mode u) tb).1 ≠ 0 →
          _valid r = None) ∧
       (resolves tb u = false ∧ (execute (mode_query mode u) tb).1 = 0 →
          _valid r = Some false).
Proof.
  intros Hm. rewrite init_fetched. cbv zeta.
  rewrite (init_from_directional _ _ _ _ Hm).
  eexists. split; [done|]. unfold execute. cbn [_valid fst].
  set (log := select_rows _ _).
  destruct (resolves tb u), log as [|e log']; simpl;
    (split; [done|]); split; try done.
  - intros [? _]. done.
  - intros [? _]. done.
  - intros [?|?]; done.
  - intros [_ ?]. lia.
Qed.

Lemma directional_log_has_no_verdict_witness :
  -1 ≠ 0 ∧
  (∃ r, TransactionLog_init ∅ (example_ledger 300) (PyInt 1) (-1) = Ok r ∧
        _valid r = None) ∧
  (∃ r, TransactionLog_init ∅ (example_ledger 300) (PyInt 9) (-1) = Ok r ∧
        _valid r = Some false).
Proof.
  split; [lia|]. split.
  - destruct (directional_log_has_no_verdict ∅ (example_ledger 300) 1 (-1) ltac:(lia))
      as (r & Hinit & _ & Hnone & _).
    exists r. split; [exact Hinit|]. apply Hnone. left. reflexivity.
  - destruct (directional_log_has_no_verdict ∅ (example_ledger 300) 9 (-1) ltac:(lia))
      as (r & Hinit & _ & _ & Hfalse).
    exists r. split; [exact Hinit|]. apply Hfalse. split; reflexivity.
Defined.

(** * Further properties of [Transaction] *)

(** ** Every run of [commit] *)

Lemma dom_users_set_balance bal u tb :
  dom (users (set_balance bal u tb)) = dom (users tb).
Proof.
  unfold set_balance. destruct (users tb !! u) as [r|] eqn:E; [|done]. simpl.
  apply dom_insert_lookup_L. by eexists.
Qed.

Lemma tid_set_balance bal u tb k :
  get_tid_from_uid (set_balance bal u tb) k = get_tid_from_uid tb k.
Proof.
  unfold get_tid_from_uid. rewrite users_set_balance.
  case_decide; [subst|done]. by destruct (users tb !! u).
Qed.

(** What every run of [commit] on a fresh transaction does, whatever the
    store answers and whatever the heap and the tables hold. *)
Lemma commit_run s r s' :
  fresh (self s) → commit s = (r, s') →
  (r = Ok tt ∨ r = Raise OperationalError ∨ r = Raise DataError ∨
   r = Raise DanglingReference) ∧
  (r = Ok tt ↔ _committed (self s') = true) ∧
  (_id (self s') = None ∨ _id (self s') = Some (auto_increment (tables s))) ∧
  (_committed (self s') = true → _id (self s') = Some (auto_increment (tables s))) ∧
  (_id (self s') = None → tables s' = tables s) ∧
  (transactions (tables s') = transactions (tables s) ∨
   ∃ e, transactions (tables s') = transactions (tables s) ++ [e] ∧ transfer_entry s e) ∧
  (_committed (self s') = true →
   ∃ e, transactions (tables s') = transactions (tables s) ++ [e] ∧ transfer_entry s e) ∧
  dom (users (tables s')) = dom (users (tables s)) ∧
  (∀ u, get_tid_from_uid (tables s') u = get_tid_from_uid (tables s) u) ∧
  connection s' = None ∧ fail s' = fail s ∧ clock s' = clock s ∧
  (calls s ≤ calls s' ≤ 9 + calls s)%nat ∧
  _src (self s') = _src (self s) ∧ _dst (self s') = _dst (self s) ∧
  _amount (self s') = _amount (self s) ∧ _reason (self s') = _reason (self s).
Proof.
  intros (Hc & Hi & Ha).
  destruct s as [t c h tb clk n f].
  destruct t as [src dst a rsn cm i]. simpl in *. subst cm i.
  unfold_commit. simpl.
  destruct (Z.ltb_spec a 0); [lia|].
  destruct (Z.eqb_spec a 0); [lia|].
  simpl.
  repeat (match goal with
          | |- context [if ?f ?n then _ else _] => destruct (f n) eqn:?
          | |- context [match ?m !! ?k with _ => _ end] => destruct (m !! k) eqn:?
          end; unfold_setters; simpl).
  all: intros [= <- <-]; simpl.
  all: rewrite ?transactions_set_balance, ?dom_users_set_balance.
  all: unfold transfer_entry, insert_transaction; simpl.
  all: repeat match goal with |- _ ∧ _ => split end.
  all: try solve [ done | lia | auto | split; intros; done | intros; discriminate
                 | intros; rewrite ?tid_set_balance; done ].
  all: try right; try intros _; eexists; (split; [reflexivity|]); simpl;
    repeat match goal with |- _ ∧ _ => split end; try done; intros o Ho;
    (destruct (decide (src = dst)) as [->|?]; simplify_map_eq; done).
Qed.

(** Outside the guard [commit] changes nothing at all. *)
Lemma commit_not_fresh s r s' :
  ¬ fresh (self s) → commit s = (r, s') → s' = s.
Proof.
  intros Hnf. unfold commit, mbind, M_bind, gets, mret, M_ret, raise.
  destruct (Z.ltb_spec (_amount (self s)) 0); [by intros [= _ <-]|].
  destruct (Z.eqb_spec (_amount (self s)) 0); [by intros [= _ <-]|].
  destruct (_committed (self s)) eqn:Hc; simpl; [by intros [= _ <-]|].
  destruct (_id (self s)) as [i|] eqn:Hi; simpl; [by intros [= _ <-]|].
  destruct Hnf. repeat split; [done | done | lia].
Qed.

Lemma Transaction_init_fresh {S} src dst amt rsn (s0 : S) t :
  Transaction_init src dst amt rsn s0 = (Ok t, s0) → fresh t ∧ _amount t = amt.
Proof.
  unfold Transaction_init, raise, mret, M_ret.
  destruct (Z.leb_spec amt 0); [done|].
  destruct src, dst; try done. intros [= <-]. by repeat split.
Qed.

(** X1.  Between two different accounts a successful commit moves the
    amount: the sender's stored balance goes down by it, the receiver's
    goes up by it, every other balance stays and the ledger is one entry
    longer. *)
Theorem commit_moves_amount s os od rs rd :
  fresh (self s) → accounts_ready s os od rs rd → healthy s →
  uid os ≠ uid od →
  ∃ s', commit s = (Ok tt, s') ∧
    stored_balance (tables s') (uid os) = Some (row_balance rs - _amount (self s)) ∧
    stored_balance (tables s') (uid od) = Some (row_balance rd + _amount (self s)) ∧
    (∀ u, u ≠ uid os → u ≠ uid od →
       stored_balance (tables s') u = stored_balance (tables s) u) ∧
    length (transactions (tables s')) = S (length (transactions (tables s))).
Proof.
  intros Hfr Hrdy Hh Hne.
  destruct (commit_fresh s os od rs rd Hfr Hrdy Hh) as (s' & Hrun & Htb & _).
  destruct Hrdy as (_ & _ & Hrs & Hrd).
  exists s'. split; [done|]. rewrite Htb, !transactions_set_balance. split_and!.
  - rewrite !stored_balance_set_balance, decide_False, decide_True by done.
    unfold insert_transaction. simpl. by rewrite Hrs.
  - rewrite stored_balance_set_balance, decide_True by done.
    rewrite users_set_balance, decide_False by done.
    unfold insert_transaction. simpl. by rewrite Hrd.
  - intros u Hs Hd. by rewrite !stored_balance_set_balance, !decide_False by done.
  - unfold insert_transaction. simpl. rewrite length_app. simpl. lia.
Qed.

Lemma transfer_pending_ready :
  fresh (self transfer_pending) ∧
  accounts_ready transfer_pending
    {| uid := 1; balance := 0 |} {| uid := 2; balance := 0 |}
    {| row_tid := 1001; row_balance := 1000 |}
    {| row_tid := 1002; row_balance := 50 |} ∧
  healthy transfer_pending.
Proof.
  split; [repeat split; reflexivity|]. split; [repeat split; reflexivity|].
  intros n _. reflexivity.
Defined.

Lemma commit_moves_amount_witness :
  (1 : Z) ≠ 2 ∧
  ∃ s', commit transfer_pending = (Ok tt, s') ∧
    stored_balance (tables s') 1 = Some (1000 - 100) ∧
    stored_balance (tables s') 2 = Some (50 + 100) ∧
    (∀ u, u ≠ 1 → u ≠ 2 →
       stored_balance (tables s') u = stored_balance (tables transfer_pending) u) ∧
    length (transactions (tables s')) = 1%nat.
Proof.
  destruct transfer_pending_ready as (Hfr & Hrdy & Hh).
  split; [lia|].
  exact (commit_moves_amount transfer_pending _ _ _ _ Hfr Hrdy Hh ltac:(simpl; lia)).
Defined.

(** X2.  A store failure at any call up to and including
    [connection.commit()] leaves no trace: [commit] passes the exception
    on, the visible tables are as before, the connection is closed, the
    transaction reports itself uncommitted and [get] returns [None]. *)
Theorem commit_is_atomic s k os od rs rd :
  fresh (self s) → accounts_ready s os od rs rd →
  (k ≤ 6)%nat → fails_at k s →
  ∃ s', commit s = (Raise OperationalError, s') ∧
    tables s' = tables s ∧
    Transaction_bool (self s') = false ∧
    get (self s') = None ∧
    connection s' = None ∧
    calls s' = (S k + calls s)%nat.
Proof.
  intros Hfr Hrdy Hk Hfail.
  destruct (commit_fault s k os od rs rd Hfr Hrdy Hk Hfail)
    as (s' & Hrun & Htb & Hself & Hconn & Hcalls & _).
  destruct Hfr as (Hc & _ & _).
  assert (Hc' : _committed (self s') = false) by (by rewrite Hself).
  exists s'. unfold Transaction_bool, get. rewrite Hc'. by repeat split.
Qed.

Lemma fails_only_at_spec k (t : Transaction) :
  fails_at k (example_state t (fails_only_at k)).
Proof.
  split; simpl; unfold fails_only_at.
  - rewrite Nat.add_0_r. apply Nat.eqb_refl.
  - intros j Hj. apply Nat.eqb_neq. lia.
Defined.

Lemma example_transfer_ready f :
  fresh (self (example_state (example_transfer 0 1) f)) ∧
  accounts_ready (example_state (example_transfer 0 1) f)
    {| uid := 1; balance := 0 |} {| uid := 2; balance := 0 |}
    {| row_tid := 1001; row_balance := 1000 |}
    {| row_tid := 1002; row_balance := 50 |}.
Proof. split; repeat split; reflexivity. Defined.

Lemma commit_is_atomic_witness :
  (2 ≤ 6)%nat ∧ fails_at 2 transfer_pending_early_fault ∧
  ∃ s', commit transfer_pending_early_fault = (Raise OperationalError, s') ∧
    tables s' = example_tables ∧
    Transaction_bool (self s') = false ∧
    get (self s') = None ∧
    connection s' = None ∧
    calls s' = 3%nat.
Proof.
  destruct (example_transfer_ready (fails_only_at 2)) as (Hfr & Hrdy).
  split; [lia|]. split; [apply fails_only_at_spec|].
  exact (commit_is_atomic transfer_pending_early_fault 2 _ _ _ _ Hfr Hrdy
           ltac:(lia) (fails_only_at_spec 2 _)).
Defined.

(** X3.  A store failure before the id of the entry has been read (one
    of the two refreshes, the [INSERT] or [SELECT LAST_INSERT_ID()])
    leaves the transaction retryable: on a store that answers again the
    next [commit] stores the one entry and sets the committed flag. *)
Theorem commit_retry_after_early_fault s k os od rs rd :
  fresh (self s) → accounts_ready s os od rs rd →
  (k ≤ 3)%nat → fails_at k s →
  (∀ n, (k + calls s < n)%nat → fail s n = false) →
  ∃ s1 s2, commit s = (Raise OperationalError, s1) ∧
    tables s1 = tables s ∧
    commit s1 = (Ok tt, s2) ∧
    _committed (self s2) = true ∧
    ∃ e, transactions (tables s2) = transactions (tables s) ++ [e].
Proof.
  intros Hfr Hrdy Hk Hfail Hafter.
  destruct (commit_fault s k os od rs rd Hfr Hrdy ltac:(lia) Hfail)
    as (s1 & Hrun & Htb & Hself & Hconn & Hcalls & Hf & Hclk & Hheap).
  destruct Hrdy as (Hs & Hd & Hrs & Hrd).
  destruct (Hheap _ _ Hs) as (os' & Hs' & Hus).
  destruct (Hheap _ _ Hd) as (od' & Hd' & Hud).
  assert (Hk4 : (k <? 4)%nat = true) by (apply Nat.ltb_lt; lia).
  rewrite Hk4 in Hself.
  assert (Hself' : self s1 = self s).
  { rewrite Hself. destruct Hfr as (_ & Hi & _).
    destruct (self s); simpl in *; by subst. }
  assert (Hfr1 : fresh (self s1)) by (by rewrite Hself').
  assert (Hrdy1 : accounts_ready s1 os' od' rs rd).
  { unfold accounts_ready. rewrite Hself', Htb, Hus, Hud. by repeat split. }
  assert (Hh1 : healthy s1).
  { intros n Hn. rewrite Hf. apply Hafter. lia. }
  destruct (commit_fresh s1 os' od' rs rd Hfr1 Hrdy1 Hh1) as (s2 & Hrun2 & _).
  destruct (commit_run s1 (Ok tt) s2 Hfr1 Hrun2)
    as (_ & Hok & _ & _ & _ & _ & Hentry & _).
  assert (Hc2 : _committed (self s2) = true) by (by apply Hok).
  destruct (Hentry Hc2) as (e & He & _).
  exists s1, s2. split; [done|]. split; [done|]. split; [done|]. split; [done|].
  exists e. by rewrite <- Htb.
Qed.

Lemma commit_retry_after_early_fault_witness :
  (2 ≤ 3)%nat ∧ fails_at 2 transfer_pending_early_fault ∧
  (∀ n, (2 + 0 < n)%nat → fails_only_at 2 n = false) ∧
  ∃ s1 s2, commit transfer_pending_early_fault = (Raise OperationalError, s1) ∧
    tables s1 = example_tables ∧
    commit s1 = (Ok tt, s2) ∧
    _committed (self s2) = true ∧
    ∃ e, transactions (tables s2) = [] ++ [e].
Proof.
  destruct (example_transfer_ready (fails_only_at 2)) as (Hfr & Hrdy).
  assert (Hafter : ∀ n, (2 + 0 < n)%nat → fails_only_at 2 n = false).
  { intros n Hn. unfold fails_only_at. apply Nat.eqb_neq. lia. }
  split; [lia|]. split; [apply fails_only_at_spec|]. split; [exact Hafter|].
  exact (commit_retry_after_early_fault transfer_pending_early_fault 2 _ _ _ _
           Hfr Hrdy ltac:(lia) (fails_only_at_spec 2 _) Hafter).
Defined.

(** ** A failure after [connection.commit()] *)

Lemma commit_fault_after_finalize s k os od rs rd :
  fresh (self s) → accounts_ready s os od rs rd →
  (7 ≤ k ≤ 8)%nat → fails_at k s →
  ∃ s', commit s = (Raise OperationalError, s') ∧
    tables s' =
      set_balance (row_balance rd + _amount (self s)) (uid od)
        (set_balance (row_balance rs - _amount (self s)) (uid os)
           (insert_transaction (uid os) (uid od) (_amount (self s))
              (_reason (self s)) (clock s) (tables s))) ∧
    self s' = set_id (Some (auto_increment (tables s))) (self s) ∧
    connection s' = None ∧ calls s' = (S k + calls s)%nat.
Proof.
  intros (Hc & Hi & Ha) (Hs & Hd & Hrs & Hrd) Hk [Hf Hb].
  destruct s as [t c h tb clk n f].
  destruct t as [src dst a rsn cm i]. simpl in *. subst cm i.
  pose proof (Hb 0%nat) as H0; pose proof (Hb 1%nat) as H1;
  pose proof (Hb 2%nat) as H2; pose proof (Hb 3%nat) as H3;
  pose proof (Hb 4%nat) as H4; pose proof (Hb 5%nat) as H5;
  pose proof (Hb 6%nat) as H6; pose proof (Hb 7%nat) as H7. clear Hb.
  unfold_commit. simpl.
  destruct (Z.ltb_spec a 0); [lia|].
  destruct (Z.eqb_spec a 0); [lia|].
  destruct k as [|[|[|[|[|[|[|[|[|?]]]]]]]]]; try lia; simpl in *;
    repeat match goal with
           | H : (?a < ?b)%nat → _ |- _ => first [specialize (H ltac:(lia)) | clear H]
           end.
  all: (destruct (decide (src = dst)) as [->|Hne]; [simplify_eq|
    destruct (decide (uid os = uid od)) as [Hu|Hu];
      [assert (rd = rs) by (rewrite Hu in Hrs; congruence); subst rd; clear Hrd|]]);
    repeat run_step; simpl; (eexists; split; [reflexivity|]); simpl;
    unfold insert_transaction; repeat run_step; done.
Qed.

Lemma stored_balance_transfer tb us ud rs rd bs bd snd rcv amt rsn now u :
  users tb !! us = Some rs → users tb !! ud = Some rd → us ≠ ud →
  stored_balance
    (set_balance bd ud (set_balance bs us (insert_transaction snd rcv amt rsn now tb))) u
  = if decide (u = ud) then Some bd
    else if decide (u = us) then Some bs
    else stored_balance tb u.
Proof.
  intros Hs Hd Hne. rewrite !stored_balance_set_balance, users_set_balance.
  unfold insert_transaction, stored_balance. simpl.
  repeat case_decide; subst; try congruence; by rewrite ?Hs, ?Hd.
Qed.

(** X4.  When the store fails after [connection.commit()], at one of
    the two refreshes of the cached balances, the transfer is in the
    store (entry appended, both balances moved) while [commit] raises
    and the transaction reports itself uncommitted with [get] returning
    [None]; a later [commit] on it then does nothing, so the transfer is
    not booked twice. *)
Theorem commit_fault_after_finalize_keeps_transfer s k os od rs rd :
  fresh (self s) → accounts_ready s os od rs rd → uid os ≠ uid od →
  (7 ≤ k ≤ 8)%nat → fails_at k s →
  ∃ s', commit s = (Raise OperationalError, s') ∧
    stored_balance (tables s') (uid os) = Some (row_balance rs - _amount (self s)) ∧
    stored_balance (tables s') (uid od) = Some (row_balance rd + _amount (self s)) ∧
    length (transactions (tables s')) = S (length (transactions (tables s))) ∧
    Transaction_bool (self s') = false ∧
    get (self s') = None ∧
    ∀ s2, self s2 = self s' → commit s2 = (Ok tt, s2).
Proof.
  intros Hfr Hrdy Hne Hk Hfail.
  destruct (commit_fault_after_finalize s k os od rs rd Hfr Hrdy Hk Hfail)
    as (s' & Hrun & Htb & Hself & _).
  destruct Hfr as (Hc & _ & Ha). destruct Hrdy as (_ & _ & Hrs & Hrd).
  assert (Hc' : _committed (self s') = false) by (by rewrite Hself).
  exists s'. split; [done|]. rewrite Htb.
  rewrite !(stored_balance_transfer _ _ _ _ _ _ _ _ _ _ _ _ _ Hrs Hrd Hne).
  rewrite !transactions_set_balance.
  rewrite decide_False, !decide_True by done.
  unfold Transaction_bool, get. rewrite Hc'.
  repeat split; try done.
  - unfold insert_transaction. simpl. rewrite length_app. simpl. lia.
  - intros s2 Hs2. apply commit_guard_closed; rewrite Hs2, Hself; simpl; [done|].
    by right.
Qed.

Lemma commit_fault_after_finalize_keeps_transfer_witness :
  (1 : Z) ≠ 2 ∧ (7 ≤ 7 ≤ 8)%nat ∧ fails_at 7 transfer_pending_refresh_fault ∧
  ∃ s', commit transfer_pending_refresh_fault = (Raise OperationalError, s') ∧
    stored_balance (tables s') 1 = Some (1000 - 100) ∧
    stored_balance (tables s') 2 = Some (50 + 100) ∧
    length (transactions (tables s')) = 1%nat ∧
    Transaction_bool (self s') = false ∧
    get (self s') = None ∧
    ∀ s2, self s2 = self s' → commit s2 = (Ok tt, s2).
Proof.
  destruct (example_transfer_ready (fails_only_at 7)) as (Hfr & Hrdy).
  split; [lia|]. split; [lia|]. split; [apply fails_only_at_spec|].
  exact (commit_fault_after_finalize_keeps_transfer transfer_pending_refresh_fault 7
           _ _ _ _ Hfr Hrdy ltac:(simpl; lia) ltac:(lia) (fails_only_at_spec 7 _)).
Defined.

(** X5.  Whatever the state and whatever the store answers, [commit]
    never rewrites the ledger or the set of accounts: the stored entries
    stay as they are, in order, with at most one entry appended, which
    then records this transfer (sender, receiver, amount, reason, the id
    and instant given by the store); no account is created or removed
    and no telegram identity changes. *)
Theorem commit_only_appends s r s' :
  commit s = (r, s') →
  (transactions (tables s') = transactions (tables s) ∨
   ∃ e, transactions (tables s') = transactions (tables s) ++ [e] ∧ transfer_entry s e) ∧
  dom (users (tables s')) = dom (users (tables s)) ∧
  (∀ u, get_tid_from_uid (tables s') u = get_tid_from_uid (tables s) u).
Proof.
  intros Hrun.
  assert (Hdec : fresh (self s) ∨ ¬ fresh (self s)).
  { unfold fresh. destruct (_committed (self s)), (_id (self s)),
      (Z.ltb_spec 0 (_amount (self s)));
      first [by left | right; intros (? & ? & ?); first [done | lia]]. }
  destruct Hdec as [Hfr|Hnf].
  - destruct (commit_run s r s' Hfr Hrun)
      as (_ & _ & _ & _ & _ & Hled & _ & Hdom & Htid & _). done.
  - rewrite (commit_not_fresh s r s' Hnf Hrun). split; [by left|done].
Qed.

(** X6.  For an amount that is an integer, the type the constructor
    annotates ([int(amount)] is then the amount itself): the amount
    checks at the head of [commit] cannot fire on a transaction the
    constructor has returned, at any time of its life.  [commit] leaves
    the amount as the constructor checked it and never raises
    [RuntimeError], nor [ValueError], [TypeError] or [IndexError]; what
    it raises comes from the store. *)
Theorem constructed_commit_never_faults {S} src dst amt rsn (s0 : S) t s r s' :
  Transaction_init src dst amt rsn s0 = (Ok t, s0) →
  _amount (self s) = _amount t →
  commit s = (r, s') →
  r ≠ Raise RuntimeError ∧ r ≠ Raise ValueError ∧ r ≠ Raise TypeError ∧
  r ≠ Raise IndexError ∧ _amount (self s') = _amount t.
Proof.
  intros Hinit Hamt Hrun.
  destruct (Transaction_init_fresh _ _ _ _ _ _ Hinit) as ((_ & _ & Ha) & _).
  assert (Hdec : fresh (self s) ∨ ¬ fresh (self s)).
  { unfold fresh. destruct (_committed (self s)) eqn:Hc, (_id (self s)) eqn:Hi;
      first [ left; repeat split; first [done | lia]
            | right; intros (? & ? & ?); done ]. }
  destruct Hdec as [Hfr|Hnf].
  - destruct (commit_run s r s' Hfr Hrun) as (Hr & Hrest).
    assert (Ha' : _amount (self s') = _amount (self s)) by apply Hrest.
    rewrite Ha', Hamt.
    destruct Hr as [->|[->|[->| ->]]]; by repeat split.
  - assert (Hg : _committed (self s) = true ∨ _id (self s) ≠ None).
    { destruct (_committed (self s)) eqn:Hc; [by left|].
      destruct (_id (self s)) eqn:Hi; [by right|].
      destruct Hnf. repeat split; first [done | lia]. }
    rewrite (commit_guard_closed s ltac:(lia) Hg) in Hrun.
    injection Hrun as <- <-. by repeat split.
Qed.

Lemma constructed_commit_never_faults_witness :
  Transaction_init (PyUser 0%nat) (PyUser 1%nat) 100 None transfer_pending_faulty
    = (Ok (example_transfer 0 1), transfer_pending_faulty) ∧
  _amount (self transfer_pending_faulty) = _amount (example_transfer 0 1) ∧
  commit transfer_pending_faulty
    = (Raise OperationalError, (commit transfer_pending_faulty).2) ∧
  Raise (A := unit) OperationalError ≠ Raise RuntimeError ∧
  Raise (A := unit) OperationalError ≠ Raise ValueError ∧
  Raise (A := unit) OperationalError ≠ Raise TypeError ∧
  Raise (A := unit) OperationalError ≠ Raise IndexError ∧
  _amount (self (commit transfer_pending_faulty).2) = _amount (example_transfer 0 1).
Proof.
  assert (Hinit : Transaction_init (PyUser 0%nat) (PyUser 1%nat) 100 None
                    transfer_pending_faulty
                  = (Ok (example_transfer 0 1), transfer_pending_faulty))
    by reflexivity.
  assert (Hrun : commit transfer_pending_faulty
                 = (Raise OperationalError, (commit transfer_pending_faulty).2))
    by (vm_compute; reflexivity).
  split; [exact Hinit|]. split; [reflexivity|]. split; [exact Hrun|].
  exact (constructed_commit_never_faults (PyUser 0%nat) (PyUser 1%nat) 100 None
           transfer_pending_faulty (example_transfer 0 1) transfer_pending_faulty
           _ _ Hinit eq_refl Hrun).
Defined.

(** X7.  After a [commit] of a fresh transaction, [bool(t)] tells
    whether the call returned normally, and [get] returns an id exactly
    then: the id of the one entry the call has appended to the ledger,
    which records this transfer.  After an exception [get] returns
    [None]. *)
Theorem commit_outcome_is_reported s r s' :
  fresh (self s) → commit s = (r, s') →
  (r = Ok tt ↔ Transaction_bool (self s') = true) ∧
  (r = Ok tt →
     ∃ e, get (self s') = Some (entry_id e) ∧
          transactions (tables s') = transactions (tables s) ++ [e] ∧
          transfer_entry s e) ∧
  (r ≠ Ok tt → get (self s') = None).
Proof.
  intros Hfr Hrun.
  destruct (commit_run s r s' Hfr Hrun)
    as (_ & Hok & _ & Hid & _ & _ & Hentry & _).
  unfold Transaction_bool, get. split; [done|]. split.
  - intros Hr. apply Hok in Hr. destruct (Hentry Hr) as (e & He & Ht).
    exists e. rewrite Hr, (Hid Hr). split; [|done].
    f_equal. symmetry. apply Ht.
  - intros Hr. destruct (_committed (self s')) eqn:Hc; [|done].
    destruct Hr. by apply Hok.
Qed.

Lemma commit_outcome_is_reported_witness :
  fresh (self transfer_pending) ∧
  commit transfer_pending = (Ok tt, transfer_committed) ∧
  (Ok tt = Ok tt ↔ Transaction_bool (self transfer_committed) = true) ∧
  (Ok tt = Ok tt →
     ∃ e, get (self transfer_committed) = Some (entry_id e) ∧
          transactions (tables transfer_committed)
            = transactions (tables transfer_pending) ++ [e] ∧
          transfer_entry transfer_pending e) ∧
  (Ok tt ≠ Ok tt → get (self transfer_committed) = None).
Proof.
  destruct transfer_pending_ready as (Hfr & _ & _).
  assert (Hrun : commit transfer_pending = (Ok tt, transfer_committed))
    by (vm_compute; reflexivity).
  split; [exact Hfr|]. split; [exact Hrun|].
  exact (commit_outcome_is_reported transfer_pending (Ok tt) transfer_committed Hfr Hrun).
Defined.

Lemma commit_only_appends_witness :
  commit transfer_pending = (Ok tt, transfer_committed) ∧
  (transactions (tables transfer_committed) = transactions (tables transfer_pending) ∨
   ∃ e, transactions (tables transfer_committed)
          = transactions (tables transfer_pending) ++ [e] ∧
        transfer_entry transfer_pending e) ∧
  dom (users (tables transfer_committed)) = dom (users (tables transfer_pending)) ∧
  (∀ u, get_tid_from_uid (tables transfer_committed) u
        = get_tid_from_uid (tables transfer_pending) u).
Proof.
  assert (Hrun : commit transfer_pending = (Ok tt, transfer_committed))
    by (vm_compute; reflexivity).
  split; [exact Hrun|].
  exact (commit_only_appends transfer_pending (Ok tt) transfer_committed Hrun).
Defined.

(** ** The cached balances and sequences of commits *)

Lemma commit_fresh_heap s os od rs rd :
  fresh (self s) → accounts_ready s os od rs rd → healthy s →
  ∃ s', commit s = (Ok tt, s') ∧
    (∀ l o, heap s !! l = Some o → ∃ o', heap s' !! l = Some o' ∧ uid o' = uid o) ∧
    (∀ l o', l = _src (self s) ∨ l = _dst (self s) →
       heap s' !! l = Some o' →
       stored_balance (tables s') (uid o') = Some (balance o')) ∧
    (∀ l, l ≠ _src (self s) → l ≠ _dst (self s) → heap s' !! l = heap s !! l).
Proof.
  intros (Hc & Hi & Ha) (Hs & Hd & Hrs & Hrd) Hf.
  destruct s as [t c h tb clk n f].
  destruct t as [src dst a rsn cm i]. unfold healthy in Hf. simpl in *. subst cm i.
  unfold_commit. simpl.
  destruct (Z.ltb_spec a 0); [lia|].
  destruct (Z.eqb_spec a 0); [lia|].
  destruct (decide (src = dst)) as [->|Hne]; [simplify_eq|
    destruct (decide (uid os = uid od)) as [Hu|Hu];
      [assert (rd = rs) by (rewrite Hu in Hrs; congruence); subst rd; clear Hrd|]];
    repeat run_step; simpl; (eexists; split; [reflexivity|]); simpl;
    unfold stored_balance; simpl; split_and!.
  all: try (intros l o Hl;
            repeat match goal with
                   | |- context [<[?j := _]> _ !! l] =>
                       destruct (decide (j = l)) as [->|];
                       [rewrite lookup_insert_eq | rewrite lookup_insert_ne by done]
                   end; simplify_eq; eauto; fail).
  all: try (intros l Hl1 Hl2; by rewrite !lookup_insert_ne by congruence).
  all: intros l o' [->| ->];
    repeat first [rewrite lookup_insert_eq | rewrite lookup_insert_ne by congruence];
    intros [= <-]; simpl;
    repeat first [rewrite lookup_insert_eq | rewrite lookup_insert_ne by congruence];
    done.
Qed.

(** X8.  After a successful commit the two user objects of the
    transaction are in step with the store: each still stands for the
    account it stood for, and its cached balance is the balance the
    store now holds for that account (also when both stand for the same
    account); no other user object is touched. *)
Theorem commit_refreshes_cached_balances s os od rs rd :
  fresh (self s) → accounts_ready s os od rs rd → healthy s →
  ∃ s' bs bd, commit s = (Ok tt, s') ∧
    heap s' !! _src (self s) = Some {| uid := uid os; balance := bs |} ∧
    heap s' !! _dst (self s) = Some {| uid := uid od; balance := bd |} ∧
    stored_balance (tables s') (uid os) = Some bs ∧
    stored_balance (tables s') (uid od) = Some bd ∧
    (∀ l, l ≠ _src (self s) → l ≠ _dst (self s) → heap s' !! l = heap s !! l).
Proof.
  intros Hfr Hrdy Hh.
  destruct (commit_fresh_heap s os od rs rd Hfr Hrdy Hh)
    as (s' & Hrun & Huid & Hbal & Hother).
  destruct Hrdy as (Hs & Hd & _ & _).
  destruct (Huid _ _ Hs) as ([us bs] & Hs' & Hus).
  destruct (Huid _ _ Hd) as ([ud bd] & Hd' & Hud).
  simpl in Hus, Hud. subst us ud.
  exists s', bs, bd. split; [done|]. split; [done|]. split; [done|].
  split; [exact (Hbal _ _ (or_introl eq_refl) Hs')|].
  split; [exact (Hbal _ _ (or_intror eq_refl) Hd')|]. done.
Qed.

Lemma commit_refreshes_cached_balances_witness :
  ∃ s' bs bd, commit transfer_pending = (Ok tt, s') ∧
    heap s' !! 0%nat = Some {| uid := 1; balance := bs |} ∧
    heap s' !! 1%nat = Some {| uid := 2; balance := bd |} ∧
    stored_balance (tables s') 1 = Some bs ∧
    stored_balance (tables s') 2 = Some bd ∧
    (∀ l, l ≠ 0%nat → l ≠ 1%nat → heap s' !! l = heap transfer_pending !! l).
Proof.
  destruct transfer_pending_ready as (Hfr & Hrdy & Hh).
  exact (commit_refreshes_cached_balances transfer_pending _ _ _ _ Hfr Hrdy Hh).
Defined.

Lemma commit_deterministic_state s r1 s1 r2 s2 :
  commit s = (r1, s1) → commit s = (r2, s2) → r1 = r2 ∧ s1 = s2.
Proof. intros H1 H2. rewrite H1 in H2. by injection H2. Qed.

(** X9.  A transfer followed by the opposite transfer of the same
    amount, the way a refund is made, brings every stored balance back
    to what it was; the ledger keeps both entries. *)
Theorem commit_refund_restores s os od rs rd rsn :
  fresh (self s) → accounts_ready s os od rs rd → healthy s →
  uid os ≠ uid od →
  ∃ s1 s2,
    commit s = (Ok tt, s1) ∧
    commit (set_self {| _src := _dst (self s); _dst := _src (self s);
                        _amount := _amount (self s); _reason := rsn;
                        _committed := false; _id := None |} s1) = (Ok tt, s2) ∧
    (∀ u, stored_balance (tables s2) u = stored_balance (tables s) u) ∧
    length (transactions (tables s2)) = (2 + length (transactions (tables s)))%nat.
Proof.
  intros Hfr Hrdy Hh Hne.
  destruct (commit_fresh s os od rs rd Hfr Hrdy Hh)
    as (s1 & Hrun & Htb & Hself & Hconn & Hcalls & Hfail & Hclk).
  destruct (commit_fresh_heap s os od rs rd Hfr Hrdy Hh)
    as (s1' & Hrun' & Hheap & _).
  destruct (commit_deterministic_state _ _ _ _ _ Hrun Hrun') as [_ <-].
  destruct Hfr as (_ & _ & Ha). destruct Hrdy as (Hs & Hd & Hrs & Hrd).
  destruct (Hheap _ _ Hs) as (os' & Hs' & Hus).
  destruct (Hheap _ _ Hd) as (od' & Hd' & Hud).
  set (a := _amount (self s)) in *.
  set (back := {| _src := _dst (self s) |}).
  assert (Hrs1 : users (tables s1) !! uid os
                 = Some {| row_tid := row_tid rs; row_balance := row_balance rs - a |}).
  { rewrite Htb, users_set_balance, decide_False by done.
    rewrite users_set_balance, decide_True by done.
    unfold insert_transaction. simpl. by rewrite Hrs. }
  assert (Hrd1 : users (tables s1) !! uid od
                 = Some {| row_tid := row_tid rd; row_balance := row_balance rd + a |}).
  { rewrite Htb, users_set_balance, decide_True by done.
    rewrite users_set_balance, decide_False by done.
    unfold insert_transaction. simpl. by rewrite Hrd. }
  destruct (commit_fresh (set_self back s1) od' os'
              {| row_tid := row_tid rd; row_balance := row_balance rd + a |}
              {| row_tid := row_tid rs; row_balance := row_balance rs - a |})
    as (s2 & Hrun2 & Htb2 & _).
  - by repeat split.
  - unfold accounts_ready. simpl. rewrite Hus, Hud. by repeat split.
  - intros n Hn. simpl in *. rewrite Hfail. apply Hh. lia.
  - exists s1, s2. split; [done|]. split; [done|]. simpl in Htb2.
    rewrite Htb2, Hus, Hud. split.
    + intros u.
      rewrite (stored_balance_transfer _ _ _ _ _ _ _ _ _ _ _ _ u Hrd1 Hrs1)
        by congruence.
      rewrite Htb.
      rewrite (stored_balance_transfer _ _ _ _ _ _ _ _ _ _ _ _ u Hrs Hrd) by done.
      unfold stored_balance. simpl.
      repeat case_decide; subst; rewrite ?Hrs, ?Hrd; simpl;
        first [congruence | f_equal; lia | done].
    + rewrite !transactions_set_balance. unfold insert_transaction. simpl.
      rewrite length_app, Htb, !transactions_set_balance. simpl.
      rewrite length_app. simpl. lia.
Qed.

Lemma commit_refund_restores_witness :
  (1 : Z) ≠ 2 ∧
  ∃ s1 s2,
    commit transfer_pending = (Ok tt, s1) ∧
    commit (set_self {| _src := 1%nat; _dst := 0%nat; _amount := 100;
                        _reason := Some "refund"%string;
                        _committed := false; _id := None |} s1) = (Ok tt, s2) ∧
    (∀ u, stored_balance (tables s2) u = stored_balance (tables transfer_pending) u) ∧
    length (transactions (tables s2)) = 2%nat.
Proof.
  destruct transfer_pending_ready as (Hfr & Hrdy & Hh).
  split; [lia|].
  exact (commit_refund_restores transfer_pending _ _ _ _ (Some "refund"%string)
           Hfr Hrdy Hh ltac:(simpl; lia)).
Defined.

(** ** The money in the store *)

Lemma total_balance_insert (m : gmap Z UserRow) u r r' tr au :
  m !! u = Some r →
  total_balance {| users := <[u := r']> m; transactions := tr; auto_increment := au |}
    = total_balance {| users := m; transactions := tr; auto_increment := au |}
      - row_balance r + row_balance r'.
Proof.
  intros Hu. unfold total_balance. simpl.
  rewrite <- (insert_delete_eq m).
  rewrite map_fold_insert_L; [| intros; lia | apply lookup_delete_eq].
  rewrite (map_fold_delete_L _ _ u r m); [lia | intros; lia | done].
Qed.

Lemma total_balance_set_balance bal u tb r :
  users tb !! u = Some r →
  total_balance (set_balance bal u tb) = total_balance tb - row_balance r + bal.
Proof.
  intros Hu. unfold set_balance. rewrite Hu.
  rewrite (total_balance_insert _ _ _ _ _ _ Hu). by destruct tb.
Qed.

(** X10.  A successful commit between two different accounts neither
    creates nor destroys money: the sum of all stored balances is the
    same before and after. *)
Theorem commit_keeps_total_balance s os od rs rd :
  fresh (self s) → accounts_ready s os od rs rd → healthy s →
  uid os ≠ uid od →
  ∃ s', commit s = (Ok tt, s') ∧
        total_balance (tables s') = total_balance (tables s).
Proof.
  intros Hfr Hrdy Hh Hne.
  destruct (commit_fresh s os od rs rd Hfr Hrdy Hh) as (s' & Hrun & Htb & _).
  destruct Hrdy as (_ & _ & Hrs & Hrd).
  exists s'. split; [done|]. rewrite Htb.
  erewrite total_balance_set_balance; last first.
  { rewrite users_set_balance, decide_False by done.
    unfold insert_transaction. simpl. exact Hrd. }
  erewrite total_balance_set_balance; last first.
  { unfold insert_transaction. simpl. exact Hrs. }
  unfold insert_transaction, total_balance. simpl. lia.
Qed.

Lemma commit_keeps_total_balance_witness :
  (1 : Z) ≠ 2 ∧
  ∃ s', commit transfer_pending = (Ok tt, s') ∧
        total_balance (tables s') = total_balance (tables transfer_pending).
Proof.
  destruct transfer_pending_ready as (Hfr & Hrdy & Hh).
  split; [lia|].
  exact (commit_keeps_total_balance transfer_pending _ _ _ _ Hfr Hrdy Hh
           ltac:(simpl; lia)).
Defined.

(** * Further properties of [TransactionLog] *)

(** ** Commits seen through the logs *)

Lemma select_rows_app p rows rows' :
  select_rows p (rows ++ rows') = select_rows p rows ++ select_rows p rows'.
Proof.
  induction rows as [|e rows IH]; [done|]. simpl.
  destruct (p e); simpl; by rewrite IH.
Qed.

Lemma recomputed_balance_baseline u start log :
  recomputed_balance u start log = start + recomputed_balance u 0 log.
Proof. unfold recomputed_balance. lia. Qed.

Lemma recomputed_balance_app u start log log' :
  recomputed_balance u start (log ++ log') =
    recomputed_balance u (recomputed_balance u start log) log'.
Proof.
  revert start. induction log as [|e log IH]; intros start; simpl.
  - by rewrite recomputed_balance_nil.
  - by rewrite !recomputed_balance_cons, IH.
Qed.

(** A successful commit changes the stored balance of every account by
    what [validate] counts for the stored entry on that account's side:
    the amount for the receiver, minus the amount for a sender that is
    not the receiver, nothing for anybody else. *)
Lemma commit_balance_delta s os od rs rd :
  fresh (self s) → accounts_ready s os od rs rd → healthy s →
  ∃ s', commit s = (Ok tt, s') ∧
    transactions (tables s') = transactions (tables s) ++ [committed_entry s os od] ∧
    get (self s') = Some (entry_id (committed_entry s os od)) ∧
    ∀ w, users (tables s') !! w =
         (λ row, {| row_tid := row_tid row;
                    row_balance := row_balance row
                                   + signed_amount w (committed_entry s os od) |})
           <$> users (tables s) !! w.
Proof.
  intros Hfr Hrdy Hh.
  destruct (commit_fresh s os od rs rd Hfr Hrdy Hh)
    as (s' & Hrun & Htb & Hself & _).
  destruct Hrdy as (_ & _ & Hrs & Hrd).
  exists s'. split; [done|]. rewrite Htb, Hself.
  rewrite !transactions_set_balance. split; [done|]. split; [done|].
  intros w. rewrite !users_set_balance.
  unfold insert_transaction, signed_amount, committed_entry. simpl.
  destruct (decide (w = uid od)) as [->|Hwd].
  - rewrite bool_decide_eq_true_2 by done.
    destruct (decide (uid od = uid os)) as [Heq|Hne].
    + rewrite Heq, Hrs in *. simplify_eq. done.
    + by rewrite Hrd.
  - rewrite bool_decide_eq_false_2 by done.
    destruct (decide (w = uid os)) as [->|Hws].
    + rewrite bool_decide_eq_true_2, Hrs by done. simpl. do 2 f_equal.
    + rewrite bool_decide_eq_false_2 by done.
      destruct (users (tables s) !! w) as [[]|]; simpl; [|done].
      do 2 f_equal. lia.
Qed.

(** X11.  A committed transfer can be read back: [get] returns the id
    of the stored entry, the sender's log of outgoing entries is its old
    one with this entry at the end, and so is the receiver's log of
    incoming entries. *)
Theorem committed_transfer_is_listed s os od rs rd h :
  fresh (self s) → accounts_ready s os od rs rd → healthy s →
  ∃ s', commit s = (Ok tt, s') ∧
    get (self s') = Some (entry_id (committed_entry s os od)) ∧
    (∀ mode, mode < 0 →
       TransactionLog_init h (tables s') (PyInt (uid os)) mode =
         Ok {| _uid := uid os; _mode := mode;
               _log := filter (λ e, sender e = uid os) (transactions (tables s))
                       ++ [committed_entry s os od];
               _valid := None |}) ∧
    (∀ mode, 0 < mode →
       TransactionLog_init h (tables s') (PyInt (uid od)) mode =
         Ok {| _uid := uid od; _mode := mode;
               _log := filter (λ e, receiver e = uid od) (transactions (tables s))
                       ++ [committed_entry s os od];
               _valid := None |}).
Proof.
  intros Hfr Hrdy Hh.
  destruct (commit_balance_delta s os od rs rd Hfr Hrdy Hh)
    as (s' & Hrun & Htr & Hget & _).
  exists s'. split; [done|]. split; [done|]. split.
  - intros mode Hm. rewrite init_fetched. cbv zeta.
    destruct (mode_query_cases mode (uid os)) as [[_ ->]|[[? _]|[? _]]]; try lia.
    rewrite Htr, select_rows_app, !select_rows_sender.
    rewrite (filter_cons_True (λ e, sender e = uid os)), filter_nil by done.
    rewrite init_from_directional by lia.
    rewrite bool_decide_eq_false_2; [done|].
    intros Hnil. by apply app_eq_nil in Hnil as [_ ?].
  - intros mode Hm. rewrite init_fetched. cbv zeta.
    destruct (mode_query_cases mode (uid od)) as [[? _]|[[_ ->]|[? _]]]; try lia.
    rewrite Htr, select_rows_app, !select_rows_receiver.
    rewrite (filter_cons_True (λ e, receiver e = uid od)), filter_nil by done.
    rewrite init_from_directional by lia.
    rewrite bool_decide_eq_false_2; [done|].
    intros Hnil. by apply app_eq_nil in Hnil as [_ ?].
Qed.

Lemma transfer_pending_on_ledger_ready :
  fresh (self transfer_pending_on_ledger) ∧
  accounts_ready transfer_pending_on_ledger
    {| uid := 1; balance := 0 |} {| uid := 2; balance := 0 |}
    {| row_tid := 1001; row_balance := 300 |}
    {| row_tid := 1002; row_balance := -300 |} ∧
  healthy transfer_pending_on_ledger.
Proof.
  split; [repeat split; reflexivity|]. split; [repeat split; reflexivity|].
  intros n _. reflexivity.
Defined.

Lemma committed_transfer_is_listed_witness :
  ∃ s', commit transfer_pending_on_ledger = (Ok tt, s') ∧
    get (self s') = Some 3 ∧
    (∀ mode, mode < 0 →
       TransactionLog_init ∅ (tables s') (PyInt 1) mode =
         Ok {| _uid := 1; _mode := mode;
               _log := [sent_200]
                       ++ [committed_entry transfer_pending_on_ledger
                             {| uid := 1; balance := 0 |} {| uid := 2; balance := 0 |}];
               _valid := None |}) ∧
    (∀ mode, 0 < mode →
       TransactionLog_init ∅ (tables s') (PyInt 2) mode =
         Ok {| _uid := 2; _mode := mode;
               _log := [sent_200]
                       ++ [committed_entry transfer_pending_on_ledger
                             {| uid := 1; balance := 0 |} {| uid := 2; balance := 0 |}];
               _valid := None |}).
Proof.
  destruct transfer_pending_on_ledger_ready as (Hfr & Hrdy & Hh).
  exact (committed_transfer_is_listed transfer_pending_on_ledger _ _ _ _ ∅ Hfr Hrdy Hh).
Defined.

Lemma Z_eqb_shift x y d : (x + d =? y + d) = (x =? y).
Proof.
  destruct (Z.eqb_spec x y), (Z.eqb_spec (x + d) (y + d)); first [done | lia].
Qed.

(** X12.  A successful commit does not change the verdict of any
    account's full history: whenever the log of mode 0 of an account
    could be built before the commit, it can be built after it, with the
    same [_valid] (the new entry and the change of the balance cancel
    out, for the sender, for the receiver, and for an account that is
    both). *)
Theorem commit_keeps_verdicts s os od rs rd h w r :
  fresh (self s) → accounts_ready s os od rs rd → healthy s →
  TransactionLog_init h (tables s) (PyInt w) 0 = Ok r →
  ∃ s' r', commit s = (Ok tt, s') ∧
           TransactionLog_init h (tables s') (PyInt w) 0 = Ok r' ∧
           _valid r' = _valid r.
Proof.
  intros Hfr Hrdy Hh Hinit.
  destruct (commit_balance_delta s os od rs rd Hfr Hrdy Hh)
    as (s' & Hrun & Htr & _ & Husers).
  exists s'. rewrite init_fetched in Hinit |- *. cbv zeta in *.
  change (mode_query 0 w) with (WhereSenderOrReceiver w) in *.
  rewrite Htr, select_rows_app.
  set (e := committed_entry s os od) in *.
  set (log := select_rows (where_clause (WhereSenderOrReceiver w))
                (transactions (tables s))) in *.
  assert (Hrel : Forall (relevant w) log).
  { unfold log. rewrite select_rows_sender_or_receiver. apply fetched_relevant. }
  destruct (users (tables s) !! w) as [row|] eqn:Hrow.
  - rewrite (init_from_full_known _ _ _ _ Hrow),
      (validate_loop_relevant _ _ _ Hrel) in Hinit.
    injection Hinit as <-.
    assert (Hrow' := Husers w). rewrite Hrow in Hrow'. simpl in Hrow'.
    rewrite (init_from_full_known _ _ _ _ Hrow').
    assert (Hrel' : Forall (relevant w)
              (log ++ select_rows (where_clause (WhereSenderOrReceiver w)) [e])).
    { apply Forall_app. split; [done|].
      rewrite select_rows_sender_or_receiver. apply fetched_relevant. }
    rewrite (validate_loop_relevant _ _ _ Hrel').
    eexists. split; [done|]. split; [done|]. cbn [_valid]. f_equal.
    rewrite recomputed_balance_app.
    rewrite (recomputed_balance_baseline _ (recomputed_balance w 0 log)).
    assert (Hlast : recomputed_balance w 0
                      (select_rows (where_clause (WhereSenderOrReceiver w)) [e])
                    = signed_amount w e).
    { unfold signed_amount, e, committed_entry. simpl.
      destruct (Z.eqb_spec (uid os) w) as [Hs|Hs],
               (Z.eqb_spec (uid od) w) as [Hr|Hr]; simpl;
        rewrite ?recomputed_balance_cons, ?recomputed_balance_nil;
        unfold signed_amount; simpl;
        rewrite ?(bool_decide_eq_true_2 _ Hr), ?(bool_decide_eq_false_2 _ Hr),
          ?(bool_decide_eq_true_2 _ Hs), ?(bool_decide_eq_false_2 _ Hs); lia. }
    rewrite Hlast. cbn [row_balance]. apply Z_eqb_shift.
  - assert (Hrow' := Husers w). rewrite Hrow in Hrow'. simpl in Hrow'.
    rewrite (init_from_full_unknown _ _ _ Hrow) in Hinit.
    destruct Hrdy as (_ & _ & Hrs & Hrd).
    assert (Hws : w ≠ uid os) by (intros ->; congruence).
    assert (Hwd : w ≠ uid od) by (intros ->; congruence).
    assert (Hnil : select_rows (where_clause (WhereSenderOrReceiver w)) [e] = []).
    { simpl. destruct (Z.eqb_spec (uid os) w); [congruence|].
      by destruct (Z.eqb_spec (uid od) w); [congruence|]. }
    rewrite Hnil, app_nil_r, (init_from_full_unknown _ _ _ Hrow').
    destruct (bool_decide (log = [])); [|done].
    injection Hinit as <-. eexists. split; [done|]. done.
Qed.

Lemma commit_keeps_verdicts_witness :
  TransactionLog_init ∅ (tables transfer_pending_on_ledger) (PyInt 1) 0
    = Ok {| _uid := 1; _mode := 0; _log := [received_500; sent_200];
            _valid := Some true |} ∧
  ∃ s' r', commit transfer_pending_on_ledger = (Ok tt, s') ∧
           TransactionLog_init ∅ (tables s') (PyInt 1) 0 = Ok r' ∧
           _valid r' = Some true.
Proof.
  destruct transfer_pending_on_ledger_ready as (Hfr & Hrdy & Hh).
  assert (Hinit : TransactionLog_init ∅ (tables transfer_pending_on_ledger) (PyInt 1) 0
                  = Ok {| _uid := 1; _mode := 0; _log := [received_500; sent_200];
                          _valid := Some true |}) by reflexivity.
  split; [exact Hinit|].
  exact (commit_keeps_verdicts transfer_pending_on_ledger _ _ _ _ ∅ 1 _
           Hfr Hrdy Hh Hinit).
Defined.

(** ** Logs the constructor has built *)

Lemma init_from_fields u mode log tb r :
  TransactionLog_init_from u mode (Z.of_nat (length log), log) tb = Ok r →
  _uid r = u ∧ _mode r = mode ∧ _log r = log.
Proof.
  destruct (decide (mode = 0)) as [->|Hm].
  - destruct (users tb !! u) as [row|] eqn:Hrow.
    + rewrite (init_from_full_known _ _ _ _ Hrow).
      destruct (validate_loop u log 0); [|done]. by intros [= <-].
    + rewrite (init_from_full_unknown _ _ _ Hrow).
      destruct (bool_decide (log = [])); [|done]. by intros [= <-].
  - rewrite (init_from_directional _ _ _ _ Hm). by intros [= <-].
Qed.

Lemma fetched_rows_relevant mode u rows :
  Forall (relevant u) (select_rows (where_clause (mode_query mode u)) rows).
Proof.
  destruct (mode_query_cases mode u) as [[_ ->]|[[_ ->]|[_ ->]]].
  - rewrite select_rows_sender. apply Forall_forall.
    intros e [He _]%list_elem_of_filter. by right.
  - rewrite select_rows_receiver. apply Forall_forall.
    intros e [He _]%list_elem_of_filter. by left.
  - rewrite select_rows_sender_or_receiver. apply fetched_relevant.
Qed.

Lemma init_inv h tb arg mode r :
  TransactionLog_init h tb arg mode = Ok r →
  (arg = PyInt (_uid r) ∨ ∃ l o, arg = PyUser l ∧ h !! l = Some o ∧ uid o = _uid r) ∧
  _mode r = mode ∧
  _log r = select_rows (where_clause (mode_query mode (_uid r))) (transactions tb).
Proof.
  unfold TransactionLog_init.
  destruct arg as [l|n| |]; simpl; try done.
  - destruct (h !! l) as [o|] eqn:Hl; simpl; [|done].
    intros Hinit. destruct (init_from_fields _ _ _ _ _ Hinit) as (Hu & Hm & Hlog).
    rewrite Hu. split; [right; eauto|]. done.
  - intros Hinit. destruct (init_from_fields _ _ _ _ _ Hinit) as (Hu & Hm & Hlog).
    rewrite Hu. split; [by left|]. done.
Qed.

(** X13.  The constructor never raises the [RuntimeError] of
    [validate]: each of its three queries returns only entries that name
    the account as sender or receiver, whatever the argument, the mode
    and the contents of the store. *)
Theorem constructor_never_faults h tb arg mode :
  TransactionLog_init h tb arg mode ≠ Raise RuntimeError.
Proof.
  assert (Hfrom : ∀ u, TransactionLog_init_from u mode
            (execute (mode_query mode u) tb) tb ≠ Raise RuntimeError).
  { intros u. unfold execute.
    set (log := select_rows _ _).
    assert (Hrel : Forall (relevant u) log) by apply fetched_rows_relevant.
    destruct (decide (mode = 0)) as [->|Hm].
    - destruct (users tb !! u) as [row|] eqn:Hrow.
      + by rewrite (init_from_full_known _ _ _ _ Hrow),
          (validate_loop_relevant _ _ _ Hrel).
      + rewrite (init_from_full_unknown _ _ _ Hrow).
        by destruct (bool_decide (log = [])).
    - by rewrite (init_from_directional _ _ _ _ Hm). }
  unfold TransactionLog_init. destruct arg as [l|n| |]; simpl; try done.
  - destruct (h !! l); simpl; [apply Hfrom|done].
  - apply Hfrom.
Qed.

Lemma append_empty a b :
  String.append a b = EmptyString → a = EmptyString ∧ b = EmptyString.
Proof. destruct a; simpl; [done|discriminate]. Qed.

Lemma join_empty sep (parts : list string) :
  Forall (λ p, p ≠ EmptyString) parts →
  join sep parts = EmptyString → parts = [].
Proof.
  intros Hne. destruct Hne as [|p parts Hp Hrest]; [done|].
  simpl. destruct parts as [|q parts]; [done|].
  intros [? _]%append_empty. done.
Qed.

Section RenderingOfBuiltLogs.

Variable get_name_from_uid : Z → string.
Variable strftime : bool → Z → string.
Variable format_amount : bool → Z → string.

Lemma len_spaces n : len (spaces n) = n.
Proof. induction n as [|n IH]; [done|]. simpl. by rewrite IH. Qed.

Lemma len_append s s' : len (String.append s s') = (len s + len s')%nat.
Proof.
  induction s as [|a s IH]; [done|]. simpl. rewrite IH.
  destruct (continues_character a); lia.
Qed.

(** The padded name fills the field of the given width, counted in
    characters, and a longer name is left as it is. *)
Lemma len_ljust width s : len (ljust width s) = Nat.max width (len s).
Proof. unfold ljust. rewrite len_append, len_spaces. lia. Qed.

Lemma format_line_not_empty ts amt direction partner rsn :
  format_line ts amt direction partner rsn ≠ EmptyString.
Proof.
  unfold format_line. intros [_ H]%append_empty. discriminate.
Qed.

Lemma to_string_loop_relevant u localized log :
  Forall (relevant u) log →
  ∃ lines,
    to_string_loop get_name_from_uid strftime format_amount u localized log = Ok lines ∧
    length lines = length log ∧
    Forall (λ p, p ≠ EmptyString) lines.
Proof.
  induction 1 as [|e log He _ (lines & IH & Hlen & Hne)]; simpl.
  - by exists [].
  - rewrite IH.
    destruct (Z.eqb_spec (receiver e) u) as [Hr|Hr]; simpl.
    + eexists. split; [done|]. simpl. rewrite Hlen. split; [done|].
      constructor; [apply format_line_not_empty | done].
    + destruct (Z.eqb_spec (sender e) u) as [Hs|Hs]; simpl.
      * eexists. split; [done|]. simpl. rewrite Hlen. split; [done|].
        constructor; [apply format_line_not_empty | done].
      * destruct He; contradiction.
Qed.

(** X14.  A log the constructor has returned, in any mode, holds only
    entries naming its account: neither [validate] nor the loop of
    [to_string] reaches its [raise RuntimeError] on it.  Given the name
    of every partner and the formatted time and amount as text,
    [to_string] returns one line per entry, joined by newlines, which
    is the empty string exactly when the log has no entry. *)
Theorem constructed_log_renders h tb arg mode r localized :
  TransactionLog_init h tb arg mode = Ok r →
  Forall (relevant (_uid r)) (_log r) ∧
  (∀ start, validate r start tb ≠ Raise RuntimeError) ∧
  ∃ lines,
    to_string_loop get_name_from_uid strftime format_amount
      (_uid r) localized (_log r) = Ok lines ∧
    length lines = length (_log r) ∧
    to_string get_name_from_uid strftime format_amount r localized
      = Ok (join newline lines) ∧
    (join newline lines = EmptyString ↔ _log r = []).
Proof.
  intros Hinit. destruct (init_inv _ _ _ _ _ Hinit) as (_ & _ & Hlog).
  assert (Hrel : Forall (relevant (_uid r)) (_log r)).
  { rewrite Hlog. apply fetched_rows_relevant. }
  split; [done|]. split.
  - intros start. unfold validate.
    destruct (negb (_mode r =? 0)); [done|].
    unfold MateBotUser. destruct (users tb !! _uid r); simpl; [|done].
    by rewrite (validate_loop_relevant _ _ _ Hrel).
  - destruct (to_string_loop_relevant (_uid r) localized (_log r) Hrel)
      as (lines & Hloop & Hlen & Hne).
    exists lines. split; [done|]. split; [done|]. split.
    + unfold to_string. rewrite Hloop. simpl.
      by destruct lines.
    + split.
      * intros Hj. apply (join_empty _ _ Hne) in Hj. subst lines.
        destruct (_log r); [done|discriminate].
      * intros Hnil. rewrite Hnil in Hlen. by destruct lines.
Qed.

End RenderingOfBuiltLogs.

Lemma constructed_log_renders_witness :
  TransactionLog_init ∅ (example_ledger 300) (PyInt 1) 0 = Ok (set_valid (Some true) log_in_order) ∧
  Forall (relevant 1) [received_500; sent_200] ∧
  (∀ start, validate (set_valid (Some true) log_in_order) start (example_ledger 300)
            ≠ Raise RuntimeError) ∧
  ∃ lines,
    to_string_loop no_name no_time no_amount 1 true [received_500; sent_200] = Ok lines ∧
    length lines = 2%nat ∧
    to_string no_name no_time no_amount (set_valid (Some true) log_in_order) true
      = Ok (join newline lines) ∧
    (join newline lines = EmptyString ↔ [received_500; sent_200] = []).
Proof.
  assert (Hinit : TransactionLog_init ∅ (example_ledger 300) (PyInt 1) 0
                  = Ok (set_valid (Some true) log_in_order)) by reflexivity.
  split; [exact Hinit|].
  exact (constructed_log_renders no_name no_time no_amount ∅ (example_ledger 300)
           (PyInt 1) 0 (set_valid (Some true) log_in_order) true Hinit).
Defined.

(** ** What [validate] depends on *)

Lemma recomputed_balance_perm u start log log' :
  log ≡ₚ log' → recomputed_balance u start log = recomputed_balance u start log'.
Proof.
  intros H. revert start.
  induction H as [|e l l' _ IH|e e' l|l l' l'' _ IH1 _ IH2]; intros start.
  - done.
  - by rewrite !recomputed_balance_cons, IH.
  - rewrite !recomputed_balance_cons. f_equal. lia.
  - by rewrite IH1, IH2.
Qed.

(** X15.  The result of [validate] does not depend on the order in which
    the store has returned the entries: two logs of the same account and
    mode whose entries are the same up to order get the same verdict, or
    the same exception. *)
Theorem validate_ignores_order self self' start tb :
  _uid self = _uid self' → _mode self = _mode self' →
  _log self ≡ₚ _log self' →
  validate self start tb = validate self' start tb.
Proof.
  intros Hu Hm Hp. unfold validate. rewrite <- Hu, <- Hm.
  destruct (negb (_mode self =? 0)); [done|].
  destruct (MateBotUser tb (_uid self)) as [o|e]; [|done]. simpl.
  destruct (relevant_or_foreign (_uid self) (_log self)) as [Hrel|Hfor].
  - rewrite (validate_loop_relevant _ _ _ Hrel).
    rewrite Hp in Hrel. rewrite (validate_loop_relevant _ _ _ Hrel).
    by rewrite (recomputed_balance_perm _ _ _ _ Hp).
  - rewrite (validate_loop_foreign _ _ _ Hfor).
    rewrite Hp in Hfor. by rewrite (validate_loop_foreign _ _ _ Hfor).
Qed.

Lemma validate_ignores_order_witness :
  _uid log_in_order = _uid log_reversed ∧ _mode log_in_order = _mode log_reversed ∧
  _log log_in_order ≡ₚ _log log_reversed ∧
  validate log_in_order 0 (example_ledger 300)
    = validate log_reversed 0 (example_ledger 300).
Proof.
  assert (Hp : _log log_in_order ≡ₚ _log log_reversed) by apply perm_swap.
  split; [reflexivity|]. split; [reflexivity|]. split; [exact Hp|].
  exact (validate_ignores_order log_in_order log_reversed 0 (example_ledger 300)
           eq_refl eq_refl Hp).
Defined.

(** X16.  For a log of mode 0 whose entries all name the account, and
    an account the store holds, [validate] returns a verdict for every
    baseline, and the verdict is [True] for exactly one of them: the
    stored balance minus what the entries add up to. *)
Theorem validate_baseline self start tb row :
  _mode self = 0 →
  users tb !! _uid self = Some row →
  Forall (relevant (_uid self)) (_log self) →
  ∃ verdict, validate self start tb = Ok (Some verdict) ∧
    (verdict = true ↔
       start = row_balance row - recomputed_balance (_uid self) 0 (_log self)).
Proof.
  intros Hm Hrow Hrel. unfold validate, MateBotUser. rewrite Hm, Hrow. simpl.
  rewrite (validate_loop_relevant _ _ _ Hrel). simpl.
  eexists. split; [done|].
  rewrite (recomputed_balance_baseline _ start).
  destruct (Z.eqb_spec (start + recomputed_balance (_uid self) 0 (_log self))
              (row_balance row)); split; intros; first [done | lia].
Qed.

Lemma validate_baseline_witness :
  _mode log_in_order = 0 ∧
  users (example_ledger 1300) !! 1 = Some {| row_tid := 1001; row_balance := 1300 |} ∧
  Forall (relevant 1) (_log log_in_order) ∧
  ∃ verdict, validate log_in_order 1000 (example_ledger 1300) = Ok (Some verdict) ∧
    (verdict = true ↔ 1000 = 1300 - recomputed_balance 1 0 (_log log_in_order)).
Proof.
  assert (Hrel : Forall (relevant 1) (_log log_in_order)).
  { constructor; [by left|]. constructor; [by right|]. constructor. }
  split; [reflexivity|]. split; [reflexivity|]. split; [exact Hrel|].
  exact (validate_baseline log_in_order 1000 (example_ledger 1300)
           {| row_tid := 1001; row_balance := 1300 |} eq_refl eq_refl Hrel).
Defined.

(** ** The three modes together *)

Lemma recomputed_balance_filter u rows :
  recomputed_balance u 0 (filter (λ e, sender e = u ∨ receiver e = u) rows)
  = sum_amounts (filter (λ e, receiver e = u) rows)
    - sum_amounts (filter (λ e, sender e = u) rows)
    + sum_amounts (filter (λ e, sender e = u ∧ receiver e = u) rows).
Proof.
  induction rows as [|e rows IH]; [done|].
  destruct (decide (sender e = u)) as [Hs|Hs], (decide (receiver e = u)) as [Hr|Hr].
  - rewrite (filter_cons_True (λ e, sender e = u ∨ receiver e = u)) by tauto.
    rewrite (filter_cons_True (λ e, receiver e = u)) by done.
    rewrite (filter_cons_True (λ e, sender e = u)) by done.
    rewrite (filter_cons_True (λ e, sender e = u ∧ receiver e = u)) by done.
    rewrite recomputed_balance_cons, recomputed_balance_baseline, IH.
    unfold signed_amount, sum_amounts. simpl.
    rewrite bool_decide_eq_true_2 by done. lia.
  - rewrite (filter_cons_True (λ e, sender e = u ∨ receiver e = u)) by tauto.
    rewrite (filter_cons_False (λ e, receiver e = u)) by done.
    rewrite (filter_cons_True (λ e, sender e = u)) by done.
    rewrite (filter_cons_False (λ e, sender e = u ∧ receiver e = u)) by tauto.
    rewrite recomputed_balance_cons, recomputed_balance_baseline, IH.
    unfold signed_amount, sum_amounts. simpl.
    rewrite bool_decide_eq_false_2, bool_decide_eq_true_2 by done. lia.
  - rewrite (filter_cons_True (λ e, sender e = u ∨ receiver e = u)) by tauto.
    rewrite (filter_cons_True (λ e, receiver e = u)) by done.
    rewrite (filter_cons_False (λ e, sender e = u)) by done.
    rewrite (filter_cons_False (λ e, sender e = u ∧ receiver e = u)) by tauto.
    rewrite recomputed_balance_cons, recomputed_balance_baseline, IH.
    unfold signed_amount, sum_amounts. simpl.
    rewrite bool_decide_eq_true_2 by done. lia.
  - rewrite (filter_cons_False (λ e, sender e = u ∨ receiver e = u)) by tauto.
    rewrite (filter_cons_False (λ e, receiver e = u)) by done.
    rewrite (filter_cons_False (λ e, sender e = u)) by done.
    rewrite (filter_cons_False (λ e, sender e = u ∧ receiver e = u)) by tauto.
    done.
Qed.

(** X17.  The three modes fit together: for an account the store holds,
    the log of mode 0 is valid exactly when the stored balance is the
    sum of the amounts of the incoming log, minus the sum of the amounts
    of the outgoing log, plus the amounts of the entries that name the
    account on both sides (which both directional logs list and
    [validate] counts as received). *)
Theorem full_history_is_received_minus_sent h tb u mp mn rin rout rfull row :
  0 < mp → mn < 0 →
  TransactionLog_init h tb (PyInt u) mp = Ok rin →
  TransactionLog_init h tb (PyInt u) mn = Ok rout →
  TransactionLog_init h tb (PyInt u) 0 = Ok rfull →
  users tb !! u = Some row →
  _valid rfull =
    Some (sum_amounts (_log rin) - sum_amounts (_log rout)
          + sum_amounts (filter (λ e, sender e = u ∧ receiver e = u) (transactions tb))
          =? row_balance row).
Proof.
  intros Hp Hn Hin Hout Hfull Hrow.
  rewrite init_fetched in Hin, Hout, Hfull. cbv zeta in *.
  destruct (init_from_fields _ _ _ _ _ Hin) as (_ & _ & ->).
  destruct (init_from_fields _ _ _ _ _ Hout) as (_ & _ & ->).
  destruct (mode_query_cases mp u) as [[? _]|[[_ ->]|[? _]]]; try lia.
  destruct (mode_query_cases mn u) as [[_ ->]|[[? _]|[? _]]]; try lia.
  change (mode_query 0 u) with (WhereSenderOrReceiver u) in Hfull.
  rewrite select_rows_sender_or_receiver in Hfull.
  rewrite (init_from_full_known _ _ _ _ Hrow) in Hfull.
  rewrite (validate_loop_relevant _ _ _ (fetched_relevant u _)) in Hfull.
  injection Hfull as <-. cbn [_valid].
  by rewrite recomputed_balance_filter, select_rows_receiver, select_rows_sender.
Qed.

Lemma full_history_is_received_minus_sent_witness :
  0 < 1 ∧ -1 < 0 ∧
  TransactionLog_init ∅ (example_ledger 300) (PyInt 1) 1
    = Ok {| _uid := 1; _mode := 1; _log := [received_500]; _valid := None |} ∧
  TransactionLog_init ∅ (example_ledger 300) (PyInt 1) (-1)
    = Ok {| _uid := 1; _mode := -1; _log := [sent_200]; _valid := None |} ∧
  TransactionLog_init ∅ (example_ledger 300) (PyInt 1) 0
    = Ok (set_valid (Some true) log_in_order) ∧
  users (example_ledger 300) !! 1 = Some {| row_tid := 1001; row_balance := 300 |} ∧
  _valid (set_valid (Some true) log_in_order) = Some (500 - 200 + 0 =? 300).
Proof.
  split; [lia|]. split; [lia|].
  split; [reflexivity|]. split; [reflexivity|]. split; [reflexivity|].
  split; [reflexivity|].
  exact (full_history_is_received_minus_sent ∅ (example_ledger 300) 1 1 (-1)
           {| _uid := 1; _mode := 1; _log := [received_500]; _valid := None |}
           {| _uid := 1; _mode := -1; _log := [sent_200]; _valid := None |}
           (set_valid (Some true) log_in_order)
           {| row_tid := 1001; row_balance := 300 |}
           ltac:(lia) ltac:(lia) eq_refl eq_refl eq_refl eq_refl).
Defined.
